(** * create_mcp_server: a shallow embedding of the project bootstrapper

    The program under study is [src/create_mcp_server/__init__.py]: it
    validates a project name, drives the [uv] package manager, copies a
    template tree into the scaffold and optionally registers the new
    server in the desktop application's JSON configuration.

    Python values are embedded as follows.
    - [str] is [string]: the UTF-8 encoding of the text.  Every test the
      program performs on a name (emptiness, membership of a space,
      [isascii], prefixes and suffixes made of ASCII characters) has the
      same answer on the sequence of code points and on its encoding,
      because each non-ASCII code point is encoded by bytes above 127.
    - [pathlib.Path] is [Path]: an anchor flag and the list of components.
    - the value of [json.loads] is [json]; a [dict] is an association
      list in insertion order.
    - the file system is a tree of [node]s.
    - statements run in the monad [M]: they read and change a [World] and
      end by returning, by raising an exception or by [sys.exit]. *)

From Stdlib Require Import String Ascii List Bool Arith ZArith NArith Lia.
Import ListNotations.
Local Open Scope string_scope.
Local Open Scope list_scope.
Set Warnings "-register-all".

(** ** Python strings *)

Module PyStr.

(** [c.isascii()] *)
Definition isascii (c : ascii) : bool := Nat.ltb (nat_of_ascii c) 128.

Definition between (lo hi : nat) (c : ascii) : bool :=
  Nat.leb lo (nat_of_ascii c) && Nat.leb (nat_of_ascii c) hi.

Definition isdigit (c : ascii) : bool := between 48 57 c.
Definition isupper (c : ascii) : bool := between 65 90 c.
Definition islower (c : ascii) : bool := between 97 122 c.

(** [c.isalnum()] on an ASCII character.  The program only evaluates it
    after [c.isascii()] succeeded, so bytes above 127 never reach it. *)
Definition isalnum (c : ascii) : bool := isdigit c || isupper c || islower c.

(** [c.isspace()] on an ASCII character: tab, line feed, vertical tab,
    form feed, carriage return, the four separators 28..31 and space. *)
Definition isspace (c : ascii) : bool := between 9 13 c || between 28 32 c.

(** [c in chars], for a one-character [c]. *)
Fixpoint char_in (c : ascii) (chars : string) : bool :=
  match chars with
  | EmptyString => false
  | String d rest => Ascii.eqb c d || char_in c rest
  end.

(** [all(p(c) for c in s)] *)
Fixpoint all (p : ascii -> bool) (s : string) : bool :=
  match s with
  | EmptyString => true
  | String c rest => p c && all p rest
  end.

(** [s.startswith(p)] *)
Definition startswith (p s : string) : bool := String.prefix p s.

(** [s.endswith(p)] *)
Fixpoint endswith (p s : string) : bool :=
  String.eqb s p ||
  match s with
  | EmptyString => false
  | String _ rest => endswith p rest
  end.

(** [sub in s], substring membership. *)
Fixpoint contains (sub s : string) : bool :=
  String.prefix sub s ||
  match s with
  | EmptyString => false
  | String _ rest => contains sub rest
  end.

(** [s.startswith((p1, p2, ...))] and [s.endswith((p1, p2, ...))] *)
Definition startswith_any (ps : list string) (s : string) : bool :=
  existsb (fun p => startswith p s) ps.
Definition endswith_any (ps : list string) (s : string) : bool :=
  existsb (fun p => endswith p s) ps.

Fixpoint lstrip (s : string) : string :=
  match s with
  | String c rest => if isspace c then lstrip rest else s
  | EmptyString => EmptyString
  end.

(** [rstrip] keeps a character when it is not a space or when something
    survives to its right. *)
Fixpoint rstrip (s : string) : string :=
  match s with
  | EmptyString => EmptyString
  | String c rest =>
      match rstrip rest with
      | EmptyString => if isspace c then EmptyString else String c EmptyString
      | kept => String c kept
      end
  end.

(** [s.strip()] *)
Definition strip (s : string) : string := rstrip (lstrip s).

End PyStr.

(** ** Paths *)

(** A [pathlib.Path]: whether it is anchored at the root, and its
    components below the anchor. *)
Record Path := mkPath { is_abs : bool; parts : list string }.

(** [p / name] for a [name] that is a single component; every use in the
    program joins a literal component or a validated project name. *)
Definition path_div (p : Path) (name : string) : Path :=
  mkPath (is_abs p) (parts p ++ [name]).

(** [p.parent] *)
Definition path_parent (p : Path) : Path :=
  mkPath (is_abs p) (removelast (parts p)).

Fixpoint strip_prefix (pre l : list string) : option (list string) :=
  match pre, l with
  | [], _ => Some l
  | a :: pre', b :: l' => if String.eqb a b then strip_prefix pre' l' else None
  | _ :: _, [] => None
  end.

(** [p.relative_to(base)]: purely lexical; [None] stands for the
    [ValueError] raised when [base] is not a prefix of [p]. *)
Definition relative_to (p base : Path) : option Path :=
  if Bool.eqb (is_abs p) (is_abs base) then
    match strip_prefix (parts base) (parts p) with
    | Some rest => Some (mkPath false rest)
    | None => None
    end
  else None.

(** What the operating system makes of a path: a relative one starts at
    the working directory, and [..] steps back. *)
Fixpoint normalize (acc : list string) (l : list string) : list string :=
  match l with
  | [] => acc
  | c :: rest =>
      if String.eqb c ".." then normalize (removelast acc) rest
      else if String.eqb c "." then normalize acc rest
      else normalize (acc ++ [c]) rest
  end.

Definition resolve (cwd : list string) (p : Path) : list string :=
  if is_abs p then normalize [] (parts p) else normalize cwd (parts p).

(** ** JSON values and Python's dynamic operations on them *)

Inductive json :=
| JNull
| JBool (b : bool)
| JInt (n : Z)
| JFloat (bits : Z)
| JStr (s : string)
| JArr (items : list json)
| JObj (fields : list (string * json)).

Module Dict.
Section Ops.
Context {V : Type}.

(** [d.get(k)] *)
Fixpoint get (k : string) (d : list (string * V)) : option V :=
  match d with
  | [] => None
  | (k', v) :: rest => if String.eqb k k' then Some v else get k rest
  end.

(** [k in d] *)
Definition mem (k : string) (d : list (string * V)) : bool :=
  match get k d with Some _ => true | None => false end.

(** [d[k] = v]: an existing key keeps its position, a new key goes last. *)
Fixpoint set (k : string) (v : V) (d : list (string * V)) : list (string * V) :=
  match d with
  | [] => [(k, v)]
  | (k', v') :: rest =>
      if String.eqb k k' then (k, v) :: rest else (k', v') :: set k v rest
  end.

Definition keys (d : list (string * V)) : list string := map fst d.

End Ops.
End Dict.

(** [key in container], for a [str] key, by the type of the container.
    [None] stands for the [TypeError] of a container that supports no
    membership test. *)
Definition py_contains (key : string) (container : json) : option bool :=
  match container with
  | JObj d => Some (Dict.mem key d)
  | JArr l =>
      Some (existsb (fun x => match x with JStr s => String.eqb s key | _ => false end) l)
  | JStr s => Some (PyStr.contains key s)
  | JNull | JBool _ | JInt _ | JFloat _ => None
  end.

(** ** The file system *)

(** A file carries its content and whether it may be opened for writing;
    a directory lists its entries in the order the system reports them. *)
Inductive node :=
| File (writable : bool) (content : string)
| Dir (entries : list (string * node)).

Module FS.

Fixpoint lookup (n : node) (p : list string) : option node :=
  match p with
  | [] => Some n
  | x :: q =>
      match n with
      | Dir es => match Dict.get x es with Some c => lookup c q | None => None end
      | File _ _ => None
      end
  end.

Definition is_dir (n : option node) : bool :=
  match n with Some (Dir _) => true | _ => false end.

(** Replace or create the node at [p]; the parent of [p] must be a
    directory of the tree. *)
Fixpoint put (n : node) (p : list string) (new : node) : option node :=
  match p with
  | [] => Some new
  | x :: q =>
      match n with
      | Dir es =>
          match Dict.get x es with
          | Some c =>
              match put c q new with
              | Some c' => Some (Dir (Dict.set x c' es))
              | None => None
              end
          | None =>
              match q with
              | [] => Some (Dir (es ++ [(x, new)]))
              | _ :: _ => None
              end
          end
      | File _ _ => None
      end
  end.

(** [os.makedirs(p, exist_ok=True)]: every missing directory on the way
    is created; a file on the way makes it fail. *)
Fixpoint makedirs (n : node) (p : list string) : option node :=
  match n with
  | File _ _ => None
  | Dir es =>
      match p with
      | [] => Some n
      | x :: q =>
          match makedirs (match Dict.get x es with Some c => c | None => Dir [] end) q with
          | Some c' => Some (Dir (Dict.set x c' es))
          | None => None
          end
      end
  end.

End FS.

(** ** [shutil.copytree(src, dst, dirs_exist_ok=True)] *)

Module Shutil.

(** [shutil.copy2(src, dst)] of the file [src] named [name], seen from the
    entry [dst] it is copied onto: a missing entry is created, a writable
    file is replaced, and a directory receives the file under its own
    name.  [None] stands for the [OSError] of a destination that cannot be
    opened for writing. *)
Definition copy2 (name : string) (src : node) (dst : option node) : option node :=
  match dst with
  | None => Some src
  | Some (File true _) => Some src
  | Some (File false _) => None
  | Some (Dir es) =>
      match Dict.get name es with
      | None => Some (Dir (Dict.set name src es))
      | Some (File true _) => Some (Dir (Dict.set name src es))
      | Some (File false _) => None
      | Some (Dir _) => None
      end
  end.

(** One entry of the source directory is copied onto the entry of the
    same name in the destination.  The result is the destination entry
    afterwards and whether every copy below it succeeded: [_copytree]
    records a failure, goes on with the remaining entries and raises
    [shutil.Error] at the end. *)
Fixpoint copy_entry (name : string) (src : node) (dst : option node)
  {struct src} : option node * bool :=
  match src with
  | File _ _ =>
      match copy2 name src dst with
      | Some n => (Some n, true)
      | None => (dst, false)
      end
  | Dir es =>
      match dst with
      | Some (File _ _) => (dst, false)
      | _ =>
          let ds := match dst with Some (Dir ds) => ds | _ => [] end in
          let '(ds', ok) :=
            (fix loop (es : list (string * node)) (ds : list (string * node))
               : list (string * node) * bool :=
               match es with
               | [] => (ds, true)
               | (n, s) :: rest =>
                   let '(r, ok1) := copy_entry n s (Dict.get n ds) in
                   let ds1 := match r with Some c => Dict.set n c ds | None => ds end in
                   let '(ds2, ok2) := loop rest ds1 in
                   (ds2, ok1 && ok2)
               end) es ds in
          (Some (Dir ds'), ok)
      end
  end.

(** The loop of [_copytree] over the entries of the source directory. *)
Fixpoint copy_entries (es ds : list (string * node)) : list (string * node) * bool :=
  match es with
  | [] => (ds, true)
  | (n, s) :: rest =>
      let '(r, ok1) := copy_entry n s (Dict.get n ds) in
      let ds1 := match r with Some c => Dict.set n c ds | None => ds end in
      let '(ds2, ok2) := copy_entries rest ds1 in
      (ds2, ok1 && ok2)
  end.

(** [copytree] of the directory [src] onto the directory entry [dst].
    [None]: [os.scandir] or [os.makedirs] raised before anything was
    copied. *)
Definition copytree (src : option node) (dst : option node)
  : option (list (string * node) * bool) :=
  match src with
  | Some (Dir es) =>
      match dst with
      | Some (File _ _) => None
      | Some (Dir ds) => Some (copy_entries es ds)
      | None => Some (copy_entries es [])
      end
  | Some (File _ _) | None => None
  end.

End Shutil.

(** ** The world the program runs in *)

(** The exceptions the program can meet. *)
Inductive exn :=
| CalledProcessError
| FileNotFoundError
| FileExistsError
| IsADirectoryError
| NotADirectoryError
| PermissionError
| JSONDecodeError
| TypeError
| KeyError
| ValueError
| InvalidVersion
| ShutilError
| Abort.

(** How the [uv] executable answers: from its arguments, its working
    directory and the file system, a return code, the text on its
    standard output and the file system it leaves. *)
Definition tool := list string -> list string -> node -> Z * string * node.

Record World := mkWorld {
  sys_platform : string;          (* sys.platform *)
  home : list string;             (* Path.home() *)
  cwd : list string;              (* Path.cwd() *)
  module_file : list string;      (* __file__ *)
  fs : node;                      (* the root directory *)
  uv : option tool;               (* [None]: no uv on the search path *)
  stdin : list string;            (* the lines the user will type *)
  stdout : list string;           (* what was written so far *)
  stderr : list string
}.

Definition set_fs (f : node) (w : World) : World :=
  mkWorld (sys_platform w) (home w) (cwd w) (module_file w) f (uv w)
          (stdin w) (stdout w) (stderr w).
Definition set_stdin (i : list string) (w : World) : World :=
  mkWorld (sys_platform w) (home w) (cwd w) (module_file w) (fs w) (uv w)
          i (stdout w) (stderr w).
Definition set_stdout (o : list string) (w : World) : World :=
  mkWorld (sys_platform w) (home w) (cwd w) (module_file w) (fs w) (uv w)
          (stdin w) o (stderr w).
Definition set_stderr (e : list string) (w : World) : World :=
  mkWorld (sys_platform w) (home w) (cwd w) (module_file w) (fs w) (uv w)
          (stdin w) (stdout w) e.

(** How a statement ends. *)
Inductive outcome (A : Type) :=
| Ret (a : A)          (* normally, with a value *)
| Exit (code : Z)      (* sys.exit(code) *)
| Raise (e : exn).     (* an exception on its way up *)
Arguments Ret {A} a.
Arguments Exit {A} code.
Arguments Raise {A} e.

Definition M (A : Type) : Type := World -> outcome A * World.

Definition ret {A} (a : A) : M A := fun w => (Ret a, w).

Definition bind {A B} (m : M A) (k : A -> M B) : M B :=
  fun w =>
    match m w with
    | (Ret a, w') => k a w'
    | (Exit c, w') => (Exit c, w')
    | (Raise e, w') => (Raise e, w')
    end.

Definition raise {A} (e : exn) : M A := fun w => (Raise e, w).

(** [sys.exit(code)] *)
Definition sys_exit {A} (code : Z) : M A := fun w => (Exit code, w).

(** [try: body except <the exceptions h answers>: h e] *)
Definition try_except {A} (body : M A) (h : exn -> option (M A)) : M A :=
  fun w =>
    match body w with
    | (Raise e, w') => match h e with Some k => k w' | None => (Raise e, w') end
    | r => r
    end.

Declare Scope prog_scope.
Delimit Scope prog_scope with prog.
Notation "x <- m ;; k" := (bind m (fun x => k))
  (at level 61, m at next level, right associativity) : prog_scope.
Notation "m ;; k" := (bind m (fun _ => k))
  (at level 61, right associativity) : prog_scope.
Local Open Scope prog_scope.

Definition get_world : M World := fun w => (Ret w, w).

(** [click.echo(msg)] and [click.echo(msg, err=True)] *)
Definition echo (msg : string) : M unit :=
  fun w => (Ret tt, set_stdout (stdout w ++ [msg]) w).
Definition echo_err (msg : string) : M unit :=
  fun w => (Ret tt, set_stderr (stderr w ++ [msg]) w).

(** ** Files, processes and the terminal *)

Definition Path_home : M Path := fun w => (Ret (mkPath true (home w)), w).
Definition Path_cwd : M Path := fun w => (Ret (mkPath true (cwd w)), w).

Definition node_at (w : World) (p : Path) : option node :=
  FS.lookup (fs w) (resolve (cwd w) p).

(** [p.exists()] *)
Definition path_exists (p : Path) : M bool :=
  fun w => (Ret (match node_at w p with Some _ => true | None => false end), w).

(** [p.read_text()] *)
Definition read_text (p : Path) : M string :=
  fun w =>
    match node_at w p with
    | Some (File _ content) => (Ret content, w)
    | Some (Dir _) => (Raise IsADirectoryError, w)
    | None => (Raise FileNotFoundError, w)
    end.

(** [p.write_text(text)]: the file is opened for writing, which fails on
    a directory, on a read-only file and below a missing directory, and
    leaves the file system as it was. *)
Definition write_text (p : Path) (text : string) : M unit :=
  fun w =>
    match node_at w p with
    | Some (Dir _) => (Raise IsADirectoryError, w)
    | Some (File false _) => (Raise PermissionError, w)
    | Some (File true _) | None =>
        match FS.put (fs w) (resolve (cwd w) p) (File true text) with
        | Some root => (Ret tt, set_fs root w)
        | None => (Raise FileNotFoundError, w)
        end
    end.

(** [p.mkdir(parents=True, exist_ok=True)] *)
Definition mkdir_parents (p : Path) : M unit :=
  fun w =>
    match FS.makedirs (fs w) (resolve (cwd w) p) with
    | Some root => (Ret tt, set_fs root w)
    | None => (Raise FileExistsError, w)
    end.

(** [subprocess.run(cmd, cwd=dir, check=True)], returning the captured
    standard output.  The only executable of this world is [uv], which
    may be missing; the working directory must exist; and a return code
    other than zero is turned into [CalledProcessError] by [check=True]. *)
Definition subprocess_run (cmd : list string) (dir : option Path) : M string :=
  fun w =>
    match cmd with
    | exe :: args =>
        if String.eqb exe "uv" then
          match uv w with
          | Some run =>
              let d := match dir with Some p => resolve (cwd w) p | None => cwd w end in
              if FS.is_dir (FS.lookup (fs w) d) then
                let '(code, out, root) := run args d (fs w) in
                ((if Z.eqb code 0 then Ret out else Raise CalledProcessError), set_fs root w)
              else (Raise FileNotFoundError, w)
          | None => (Raise FileNotFoundError, w)
          end
        else (Raise FileNotFoundError, w)
    | [] => (Raise FileNotFoundError, w)
    end.

(** The first match of [(p / "src").glob("*/__init__.py")], in the order
    the directory is listed: [next(..., None)]. *)
Definition glob_init (w : World) (p : Path) : option Path :=
  match node_at w (path_div p "src") with
  | Some (Dir es) =>
      match
        find (fun e => match snd e with
                       | Dir inner => Dict.mem "__init__.py" inner
                       | File _ _ => false
                       end) es
      with
      | Some (d, _) => Some (path_div (path_div (path_div p "src") d) "__init__.py")
      | None => None
      end
  | _ => None
  end.

(** [shutil.copytree(src, dst, dirs_exist_ok=True)] on the world. *)
Definition copytree (src dst : Path) : M unit :=
  fun w =>
    match Shutil.copytree (node_at w src) (node_at w dst) with
    | None => (Raise FileNotFoundError, w)
    | Some (entries, ok) =>
        match FS.put (fs w) (resolve (cwd w) dst) (Dir entries) with
        | Some root => ((if ok then Ret tt else Raise ShutilError), set_fs root w)
        | None => (Raise FileNotFoundError, w)
        end
    end.

(** [click.prompt(text, type=str)] without a default: the prompt is shown
    and a line is read until the line is not empty; the end of the input
    raises [click.Abort]. *)
Fixpoint prompt_lines (text : string) (lines shown : list string)
  : outcome string * list string * list string :=
  match lines with
  | [] => (Raise Abort, [], shown ++ [(text ++ ": ")%string])
  | l :: rest =>
      if String.eqb l "" then prompt_lines text rest (shown ++ [(text ++ ": ")%string])
      else (Ret l, rest, shown ++ [(text ++ ": ")%string])
  end.

Definition click_prompt (text : string) : M string :=
  fun w =>
    let '(r, rest, shown) := prompt_lines text (stdin w) (stdout w) in
    (r, set_stdout shown (set_stdin rest w)).

Definition lower_char (c : ascii) : ascii :=
  if PyStr.isupper c then ascii_of_nat (nat_of_ascii c + 32) else c.

Fixpoint lower (s : string) : string :=
  match s with
  | EmptyString => EmptyString
  | String c rest => String (lower_char c) (lower rest)
  end.

(** [click.confirm(text, default=True)]: [y] and [yes] accept, [n] and
    [no] refuse, an empty line takes the default, anything else is
    reported and asked again; the end of the input raises [click.Abort]. *)
Fixpoint confirm_lines (text : string) (lines shown : list string)
  : outcome bool * list string * list string :=
  match lines with
  | [] => (Raise Abort, [], shown ++ [(text ++ " [Y/n]: ")%string])
  | l :: rest =>
      let answer := PyStr.strip (lower l) in
      if String.eqb answer "y" || String.eqb answer "yes" then
        (Ret true, rest, shown ++ [(text ++ " [Y/n]: ")%string])
      else if String.eqb answer "n" || String.eqb answer "no" then
        (Ret false, rest, shown ++ [(text ++ " [Y/n]: ")%string])
      else if String.eqb answer "" then
        (Ret true, rest, shown ++ [(text ++ " [Y/n]: ")%string])
      else
        confirm_lines text rest (shown ++ [(text ++ " [Y/n]: ")%string; "Error: invalid input"])
  end.

Definition click_confirm (text : string) : M bool :=
  fun w =>
    let '(r, rest, shown) := confirm_lines text (stdin w) (stdout w) in
    (r, set_stdout shown (set_stdin rest w)).

(** ** Versions *)

Module Version.

(** The longest prefix of decimal digits, and what follows it: [\d+]. *)
Fixpoint span_digits (s : string) : string * string :=
  match s with
  | String c rest =>
      if PyStr.isdigit c then
        let '(d, r) := span_digits rest in (String c d, r)
      else (EmptyString, s)
  | EmptyString => (EmptyString, EmptyString)
  end.

(** One literal character of a pattern. *)
Definition eat (c : ascii) (s : string) : option string :=
  match s with
  | String x rest => if Ascii.eqb x c then Some rest else None
  | EmptyString => None
  end.

(** [(\d+)]: greedy, and at least one digit. *)
Definition digits1 (s : string) : option (string * string) :=
  match span_digits s with
  | (String _ _ as d, rest) => Some (d, rest)
  | (EmptyString, _) => None
  end.

(** [re.match(r"uv (\d+\.\d+\.\d+)", s)], giving [match.group(1)].  The
    pattern is anchored at the start of [s] only, and no digit can be
    given back: what follows a run of digits has to be the period. *)
Definition match_version (s : string) : option string :=
  match eat "u" s with None => None | Some s =>
  match eat "v" s with None => None | Some s =>
  match eat " " s with None => None | Some s =>
  match digits1 s with None => None | Some (major, s) =>
  match eat "." s with None => None | Some s =>
  match digits1 s with None => None | Some (minor, s) =>
  match eat "." s with None => None | Some s =>
  match digits1 s with None => None | Some (patch, _) =>
    Some (major ++ "." ++ minor ++ "." ++ patch)%string
  end end end end end end end end.

(** [int(digits)] read from the left, with the value so far. *)
Fixpoint int_of_digits (acc : N) (s : string) : option N :=
  match s with
  | EmptyString => Some acc
  | String c rest =>
      if PyStr.isdigit c
      then int_of_digits (10 * acc + N.of_nat (nat_of_ascii c - 48)) rest
      else None
  end.

(** The components of a dotted version: [cur] collects the digits of the
    component being read. *)
Fixpoint release_of (cur : string) (s : string) : option (list N) :=
  match s with
  | EmptyString =>
      match cur with
      | EmptyString => None
      | _ => option_map (fun n => [n]) (int_of_digits 0 cur)
      end
  | String c rest =>
      if Ascii.eqb c "." then
        match cur with
        | EmptyString => None
        | _ =>
            match int_of_digits 0 cur, release_of EmptyString rest with
            | Some n, Some l => Some (n :: l)
            | _, _ => None
            end
        end
      else release_of (cur ++ String c EmptyString)%string rest
  end.

(** [packaging.version.parse(s)] on a release [N(.N)*], the only shape
    the program passes to it; [None] stands for [InvalidVersion].  The
    other spellings [packaging] accepts (epochs, pre-releases, local
    parts) are not modelled. *)
Definition parse (s : string) : option (list N) := release_of EmptyString s.

(** The comparison key of [packaging]: the release without its trailing
    zeros. *)
Fixpoint key (l : list N) : list N :=
  match l with
  | [] => []
  | n :: rest =>
      match key rest with
      | [] => if N.eqb n 0 then [] else [n]
      | k => n :: k
      end
  end.

(** Python's order on tuples of integers. *)
Fixpoint tuple_lt (a b : list N) : bool :=
  match a, b with
  | _, [] => false
  | [], _ :: _ => true
  | x :: a', y :: b' => N.ltb x y || (N.eqb x y && tuple_lt a' b')
  end.

(** [a >= b] on parsed versions. *)
Definition ge (a b : list N) : bool := negb (tuple_lt (key a) (key b)).

End Version.

(** ** Python's subscripting on the values of [json.loads] *)

(** [key in container] *)
Definition py_in (key : string) (container : json) : M bool :=
  match py_contains key container with
  | Some b => ret b
  | None => raise TypeError
  end.

(** [container[key]] for a [str] key *)
Definition py_getitem (container : json) (key : string) : M json :=
  match container with
  | JObj d =>
      match Dict.get key d with
      | Some v => ret v
      | None => raise KeyError
      end
  | _ => raise TypeError
  end.

(** [container[key] = v] for a [str] key, giving the container after the
    assignment. *)
Definition py_setitem (container : json) (key : string) (v : json) : M json :=
  match container with
  | JObj d => ret (JObj (Dict.set key v d))
  | _ => raise TypeError
  end.


(** ** A concrete platform for the executable examples

    The theorems below leave [json.loads], [json.dumps], [str(path)],
    [Path(text)] and [str(e)] abstract.  The examples run the program on
    the instances of this module: POSIX path syntax, a JSON codec for
    ASCII strings and integers in the layout of [indent=2], and a [uv]
    that scaffolds a package. *)

Module Demo.

Fixpoint join (sep : string) (l : list string) : string :=
  match l with
  | [] => EmptyString
  | [x] => x
  | x :: rest => (x ++ sep ++ join sep rest)%string
  end.

Definition path_str (p : Path) : string :=
  if is_abs p then ("/" ++ join "/" (parts p))%string
  else match parts p with [] => "." | l => join "/" l end.

(** The components of a path text: [cur] collects the component being
    read; empty components are dropped. *)
Fixpoint split_path (cur : string) (s : string) : list string :=
  match s with
  | EmptyString => match cur with EmptyString => [] | _ => [cur] end
  | String c rest =>
      if Ascii.eqb c "/" then
        match cur with
        | EmptyString => split_path EmptyString rest
        | _ => cur :: split_path EmptyString rest
        end
      else split_path (cur ++ String c EmptyString)%string rest
  end.

Definition Path_of (s : string) : Path :=
  mkPath (PyStr.startswith "/" s) (split_path EmptyString s).

Definition exn_str (e : exn) : string :=
  match e with
  | CalledProcessError => "CalledProcessError"
  | FileNotFoundError => "FileNotFoundError"
  | FileExistsError => "FileExistsError"
  | IsADirectoryError => "IsADirectoryError"
  | NotADirectoryError => "NotADirectoryError"
  | PermissionError => "PermissionError"
  | JSONDecodeError => "JSONDecodeError"
  | TypeError => "TypeError"
  | KeyError => "KeyError"
  | ValueError => "ValueError"
  | InvalidVersion => "InvalidVersion"
  | ShutilError => "ShutilError"
  | Abort => "Abort"
  end.

(** *** Writing JSON *)

Fixpoint digits_of (fuel : nat) (n : N) (acc : string) : string :=
  match fuel with
  | O => acc
  | S fuel' =>
      let acc' := String (ascii_of_N (48 + N.modulo n 10)) acc in
      if N.ltb n 10 then acc' else digits_of fuel' (N.div n 10) acc'
  end.

Definition str_of_N (n : N) : string := digits_of (S (N.to_nat (N.log2 n))) n EmptyString.

Definition str_of_Z (z : Z) : string :=
  match z with
  | Zneg p => String "-" (str_of_N (Npos p))
  | _ => str_of_N (Z.to_N z)
  end.

(** The double quote. *)
Definition dquote : ascii := "034"%char.

Fixpoint escape (s : string) : string :=
  match s with
  | EmptyString => EmptyString
  | String c rest =>
      if Ascii.eqb c dquote then String "\" (String dquote (escape rest))
      else if Ascii.eqb c "\" then String "\" (String "\" (escape rest))
      else if Ascii.eqb c "010" then String "\" (String "n" (escape rest))
      else if Ascii.eqb c "009" then String "\" (String "t" (escape rest))
      else String c (escape rest)
  end.

Definition quote (s : string) : string :=
  String dquote (escape s ++ String dquote EmptyString).

Fixpoint pad (n : nat) : string :=
  match n with O => EmptyString | S k => String " " (pad k) end.

Definition nl : string := String "010" EmptyString.

(** [json.dumps(v, indent=2)] with [v] printed at depth [indent]. *)
Fixpoint dumps_at (indent : nat) (v : json) {struct v} : string :=
  match v with
  | JNull => "null"
  | JBool true => "true"
  | JBool false => "false"
  | JInt n => str_of_Z n
  | JFloat _ => "NaN"
  | JStr s => quote s
  | JArr [] => "[]"
  | JArr items =>
      ("[" ++ nl ++
       (fix go (l : list json) : string :=
          match l with
          | [] => EmptyString
          | [x] => pad (2 + indent) ++ dumps_at (2 + indent) x
          | x :: rest => pad (2 + indent) ++ dumps_at (2 + indent) x ++ "," ++ nl ++ go rest
          end) items
       ++ nl ++ pad indent ++ "]")%string
  | JObj [] => "{}"
  | JObj fields =>
      ("{" ++ nl ++
       (fix go (l : list (string * json)) : string :=
          match l with
          | [] => EmptyString
          | [(k, x)] => pad (2 + indent) ++ quote k ++ ": " ++ dumps_at (2 + indent) x
          | (k, x) :: rest =>
              pad (2 + indent) ++ quote k ++ ": " ++ dumps_at (2 + indent) x
              ++ "," ++ nl ++ go rest
          end) fields
       ++ nl ++ pad indent ++ "}")%string
  end.

Definition json_dumps (v : json) : string := dumps_at 0 v.

(** *** Reading JSON *)

Definition is_ws (c : ascii) : bool :=
  Ascii.eqb c " " || Ascii.eqb c "010" || Ascii.eqb c "009" || Ascii.eqb c "013".

Fixpoint skip_ws (s : string) : string :=
  match s with
  | String c rest => if is_ws c then skip_ws rest else s
  | EmptyString => EmptyString
  end.

(** The characters of a string literal after its opening quote. *)
Fixpoint read_string (s : string) : option (string * string) :=
  match s with
  | EmptyString => None
  | String c rest =>
      if Ascii.eqb c dquote then Some (EmptyString, rest)
      else if Ascii.eqb c "\" then
        match rest with
        | String e rest' =>
            let put (x : ascii) :=
              match read_string rest' with
              | Some (t, r) => Some (String x t, r)
              | None => None
              end in
            if Ascii.eqb e "n" then put "010"%char
            else if Ascii.eqb e "t" then put "009"%char
            else if Ascii.eqb e dquote then put dquote
            else if Ascii.eqb e "\" then put "\"%char
            else if Ascii.eqb e "/" then put "/"%char
            else None
        | EmptyString => None
        end
      else
        match read_string rest with
        | Some (t, r) => Some (String c t, r)
        | None => None
        end
  end.

Definition read_int (s : string) : option (Z * string) :=
  let '(neg, body) := match s with
                      | String "-" r => (true, r)
                      | _ => (false, s)
                      end in
  match Version.span_digits body with
  | (String _ _ as d, rest) =>
      match rest with
      | String "." _ | String "e" _ | String "E" _ => None
      | _ =>
          match Version.int_of_digits 0 d with
          | Some n => Some (if neg then Z.opp (Z.of_N n) else Z.of_N n, rest)
          | None => None
          end
      end
  | _ => None
  end.

Definition expect (lit : string) (v : json) (s : string) : option (json * string) :=
  if String.prefix lit s
  then Some (v, String.substring (String.length lit) (String.length s - String.length lit) s)
  else None.

Fixpoint read_value (fuel : nat) (s : string) {struct fuel} : option (json * string) :=
  match fuel with
  | O => None
  | S fuel' =>
      match skip_ws s with
      | String "n" _ as t => expect "null" JNull t
      | String "t" _ as t => expect "true" (JBool true) t
      | String "f" _ as t => expect "false" (JBool false) t
      | String "034" rest =>
          match read_string rest with
          | Some (x, r) => Some (JStr x, r)
          | None => None
          end
      | String "[" rest =>
          match skip_ws rest with
          | String "]" r => Some (JArr [], r)
          | t =>
              match read_items fuel' t with
              | Some (l, r) => Some (JArr l, r)
              | None => None
              end
          end
      | String "{" rest =>
          match skip_ws rest with
          | String "}" r => Some (JObj [], r)
          | t =>
              match read_fields fuel' t [] with
              | Some (d, r) => Some (JObj d, r)
              | None => None
              end
          end
      | t =>
          match read_int t with
          | Some (n, r) => Some (JInt n, r)
          | None => None
          end
      end
  end
with read_items (fuel : nat) (s : string) {struct fuel} : option (list json * string) :=
  match fuel with
  | O => None
  | S fuel' =>
      match read_value fuel' s with
      | Some (v, r) =>
          match skip_ws r with
          | String "," r' =>
              match read_items fuel' r' with
              | Some (l, r'') => Some (v :: l, r'')
              | None => None
              end
          | String "]" r' => Some ([v], r')
          | _ => None
          end
      | None => None
      end
  end
with read_fields (fuel : nat) (s : string) (acc : list (string * json)) {struct fuel}
  : option (list (string * json) * string) :=
  match fuel with
  | O => None
  | S fuel' =>
      match skip_ws s with
      | String "034" rest =>
          match read_string rest with
          | Some (k, r) =>
              match skip_ws r with
              | String ":" r1 =>
                  match read_value fuel' r1 with
                  | Some (v, r2) =>
                      let acc' := Dict.set k v acc in
                      match skip_ws r2 with
                      | String "," r3 => read_fields fuel' r3 acc'
                      | String "}" r3 => Some (acc', r3)
                      | _ => None
                      end
                  | None => None
                  end
              | _ => None
              end
          | None => None
          end
      | _ => None
      end
  end.

(** [json.loads(text)]: one value and nothing but whitespace after it. *)
Definition json_loads (text : string) : option json :=
  match read_value (S (String.length text)) text with
  | Some (v, rest) =>
      match skip_ws rest with
      | EmptyString => Some v
      | _ => None
      end
  | None => None
  end.

(** *** A [uv] that scaffolds *)

Fixpoint replace_char (a b : ascii) (s : string) : string :=
  match s with
  | EmptyString => EmptyString
  | String c rest => String (if Ascii.eqb c a then b else c) (replace_char a b rest)
  end.

(** [uv --version] reports [version]; [uv init --name n ...] writes
    [pyproject.toml] and [src/<n with _ for ->/__init__.py] below the
    working directory; [uv add] succeeds; anything else fails. *)
Definition uv_tool (version : string) : tool :=
  fun args dir root =>
    match args with
    | ["--version"] => (0%Z, ("uv " ++ version ++ nl)%string, root)
    | "init" :: "--name" :: n :: _ =>
        let pkg := dir ++ ["src"; replace_char "-" "_" n] in
        match FS.makedirs root pkg with
        | Some r1 =>
            match FS.put r1 (pkg ++ ["__init__.py"]) (File true "def main(): ...") with
            | Some r2 =>
                match FS.put r2 (dir ++ ["pyproject.toml"]) (File true "[project]") with
                | Some r3 => (0%Z, EmptyString, r3)
                | None => (2%Z, EmptyString, root)
                end
            | None => (2%Z, EmptyString, root)
            end
        | None => (2%Z, EmptyString, root)
        end
    | "add" :: _ => (0%Z, EmptyString, root)
    | _ => (2%Z, EmptyString, root)
    end.

(** A macOS machine: the desktop application is installed and configured
    with one server, the tool's template holds [server.py], and the
    working directory is [/Users/me/work]. *)
Definition config_text : string :=
  json_dumps
    (JObj [("theme", JStr "dark");
           ("mcpServers",
            JObj [("files", JObj [("command", JStr "npx"); ("args", JArr [JStr "fs"])])])]).

Definition root : node :=
  Dir [("Users",
        Dir [("me",
              Dir [("Library",
                    Dir [("Application Support",
                          Dir [("Claude",
                                Dir [("claude_desktop_config.json",
                                      File true config_text)])])]);
                   ("work", Dir [])])]);
       ("opt",
        Dir [("create_mcp_server",
              Dir [("__init__.py", File true "import click");
                   ("template",
                    Dir [("__init__.py", File true "from . import server");
                         ("server.py", File true "import mcp")])])])].

Definition world (version : string) (lines : list string) : World :=
  mkWorld "darwin" ["Users"; "me"] ["Users"; "me"; "work"]
          ["opt"; "create_mcp_server"; "__init__.py"]
          root (Some (uv_tool version)) lines [] [].

(** The configuration of [root], parsed, and its servers. *)
Definition config : list (string * json) :=
  [("theme", JStr "dark");
   ("mcpServers",
    JObj [("files", JObj [("command", JStr "npx"); ("args", JArr [JStr "fs"])])])].

Definition servers : list (string * json) :=
  [("files", JObj [("command", JStr "npx"); ("args", JArr [JStr "fs"])])].

Definition claude : Path :=
  mkPath true ["Users"; "me"; "Library"; "Application Support"; "Claude"].

(** A project below the working directory, and one elsewhere. *)
Definition project : Path := mkPath true ["Users"; "me"; "work"; "weather"].

(** The world after [project] was made and [uv init] ran in it. *)
Definition scaffolded : World :=
  snd ((mkdir_parents project ;;
        subprocess_run ["uv"; "init"; "--name"; "weather"; "--package"; "--app"; "--quiet"]
                       (Some project))
         (world "0.5.0" [])).

End Demo.
(** ** The program *)

Definition MIN_UV_VERSION : string := "0.4.10".

Section Program.

Set Default Proof Using "Type".

(** The library functions the program calls on its data and whose
    results it only passes on. *)
Variable json_loads : string -> option json.   (* json.loads; None: it raised *)
Variable json_dumps : json -> string.          (* json.dumps(_, indent=2) *)
Variable path_str : Path -> string.            (* str(path) *)
Variable Path_of : string -> Path.             (* Path(text) *)
Variable exn_str : exn -> string.              (* str(e) *)

Definition check_uv_version (required_version : string) : M (option string) :=
  try_except
    (out <- subprocess_run ["uv"; "--version"] None ;;
     let version := PyStr.strip out in
     match Version.match_version version with
     | Some version_num =>
         match Version.parse version_num with
         | None => raise InvalidVersion
         | Some have =>
             match Version.parse required_version with
             | None => raise InvalidVersion
             | Some need =>
                 if Version.ge have need then ret (Some version) else ret None
             end
         end
     | None => ret None
     end)
    (fun e =>
       match e with
       | CalledProcessError =>
           Some (echo_err "❌ Error: Failed to check uv version." ;; sys_exit 1)
       | FileNotFoundError => Some (ret None)
       | _ => None
       end).

Definition ensure_uv_installed : M unit :=
  v <- check_uv_version MIN_UV_VERSION ;;
  match v with
  | None =>
      echo_err ("❌ Error: uv >= " ++ MIN_UV_VERSION ++ " is required but not installed.")%string ;;
      echo_err "To install, visit: https://github.com/astral-sh/uv" ;;
      sys_exit 1
  | Some _ => ret tt
  end.

Definition get_claude_config_path : M (option Path) :=
  w <- get_world ;;
  if String.eqb (sys_platform w) "win32" then
    h <- Path_home ;;
    let path := path_div (path_div (path_div h "AppData") "Roaming") "Claude" in
    e <- path_exists path ;;
    if e then ret (Some path) else ret None
  else if String.eqb (sys_platform w) "darwin" then
    h <- Path_home ;;
    let path := path_div (path_div (path_div h "Library") "Application Support") "Claude" in
    e <- path_exists path ;;
    if e then ret (Some path) else ret None
  else ret None.

Definition has_claude_app : M bool :=
  p <- get_claude_config_path ;;
  ret (match p with Some _ => true | None => false end).

(** The entry the registrar adds for a project. *)
Definition server_entry (project_name : string) (project_path : Path) : json :=
  JObj [("command", JStr "uv");
        ("args", JArr [JStr "--directory"; JStr (path_str project_path);
                       JStr "run"; JStr project_name])].

(** The [try] block of [update_claude_config].  [config["mcpServers"]]
    is an object shared with [config]: the assignment into it is seen
    through [config], which is written back as a whole. *)
Definition update_claude_config_body
  (config_file : Path) (project_name : string) (project_path : Path) : M bool :=
  text <- read_text config_file ;;
  config <- match json_loads text with
            | Some c => ret c
            | None => raise JSONDecodeError
            end ;;
  has <- py_in "mcpServers" config ;;
  config <- (if negb has then py_setitem config "mcpServers" (JObj []) else ret config) ;;
  servers <- py_getitem config "mcpServers" ;;
  present <- py_in project_name servers ;;
  if present then
    echo_err ("⚠️ Warning: " ++ project_name ++ " already exists in Claude.app configuration")%string ;;
    echo_err ("Settings file location: " ++ path_str config_file)%string ;;
    ret false
  else
    servers <- py_setitem servers project_name (server_entry project_name project_path) ;;
    config <- py_setitem config "mcpServers" servers ;;
    write_text config_file (json_dumps config) ;;
    echo ("✅ Added " ++ project_name ++ " to Claude.app configuration")%string ;;
    echo ("Settings file location: " ++ path_str config_file)%string ;;
    ret true.

Definition update_claude_config (project_name : string) (project_path : Path) : M bool :=
  config_dir <- get_claude_config_path ;;
  match config_dir with
  | None => ret false
  | Some config_dir =>
      let config_file := path_div config_dir "claude_desktop_config.json" in
      e <- path_exists config_file ;;
      if negb e then ret false
      else
        try_except
          (update_claude_config_body config_file project_name project_path)
          (fun _ =>
             Some (echo_err "❌ Failed to update Claude.app configuration" ;;
                   echo_err ("Settings file location: " ++ path_str config_file)%string ;;
                   ret false))
  end.

Definition copy_template (path : Path) (name : string) : M unit :=
  w <- get_world ;;
  let template_dir := path_div (path_parent (mkPath true (module_file w))) "template" in
  match glob_init w path with
  | None =>
      echo_err "❌ Error: Could not find __init__.py in src directory" ;;
      sys_exit 1
  | Some src_dir =>
      let target_dir := path_parent src_dir in
      try_except
        (copytree template_dir target_dir)
        (fun e =>
           Some (echo_err ("❌ Error: Failed to copy template files: " ++ exn_str e)%string ;;
                 sys_exit 1))
  end.

(** The last statements of [create_project]: the summary. *)
Definition report_created (path : Path) (name : string) : M unit :=
  c <- Path_cwd ;;
  match relative_to path c with
  | None => raise ValueError
  | Some relpath =>
      echo ("✅ Created project " ++ name ++ " in " ++ path_str relpath)%string ;;
      echo "ℹ️ To install dependencies run:" ;;
      echo ("   cd " ++ path_str relpath)%string ;;
      echo "   uv sync --dev --all-extras"
  end.

(** The statement of [create_project] that offers the registration:
    [if use_claude and has_claude_app() and click.confirm(...)]. *)
Definition offer_claude_app (path : Path) (name : string) (use_claude : bool) : M unit :=
  if use_claude then
    has <- has_claude_app ;;
    if has then
      yes <- click_confirm
               (String "010" "Claude.app detected. Would you like to install the server into Claude.app now?") ;;
      if yes then update_claude_config name path ;; ret tt else ret tt
    else ret tt
  else ret tt.

(** The statements of [create_project] before the summary. *)
Definition provision (path : Path) (name : string) (use_claude : bool) : M unit :=
  mkdir_parents path ;;
  try_except
    (subprocess_run ["uv"; "init"; "--name"; name; "--package"; "--app"; "--quiet"]
                    (Some path) ;; ret tt)
    (fun e =>
       match e with
       | CalledProcessError =>
           Some (echo_err "❌ Error: Failed to initialize project." ;; sys_exit 1)
       | _ => None
       end) ;;
  try_except
    (subprocess_run ["uv"; "add"; "mcp"] (Some path) ;; ret tt)
    (fun e =>
       match e with
       | CalledProcessError =>
           Some (echo_err "❌ Error: Failed to add mcp dependency." ;; sys_exit 1)
       | _ => None
       end) ;;
  copy_template path name ;;
  offer_claude_app path name use_claude.

Definition create_project (path : Path) (name : string) (use_claude : bool) : M unit :=
  provision path name use_claude ;;
  report_created path name.

Definition check_package_name (name : string) : M bool :=
  if String.eqb name "" then
    echo_err "❌ Project name cannot be empty" ;;
    ret false
  else if PyStr.contains " " name then
    echo_err "❌ Project name must not contain spaces" ;;
    ret false
  else if negb (PyStr.all (fun c => PyStr.isascii c && (PyStr.isalnum c || PyStr.char_in c "_-.")) name) then
    echo_err "❌ Project name must consist of ASCII letters, digits, underscores, hyphens, and periods" ;;
    ret false
  else if PyStr.startswith_any ["_"; "-"; "."] name || PyStr.endswith_any ["_"; "-"; "."] name then
    echo_err "❌ Project name must not start or end with an underscore, hyphen, or period" ;;
    ret false
  else ret true.

Definition main (path : option Path) (name : option string) (claudeapp : bool) : M Z :=
  ensure_uv_installed ;;
  echo "Creating a new MCP server project using uv." ;;
  echo "This will set up a Python project with MCP dependency." ;;
  echo (String "010" "Let's begin!" ++ String "010" "")%string ;;
  name <- match name with
          | None => n <- click_prompt "Project name (required)" ;; ret (Some n)
          | Some n => ret (Some n)
          end ;;
  match name with
  | None =>
      echo_err "❌ Error: Project name cannot be empty" ;;
      ret 1%Z
  | Some name =>
      ok <- check_package_name name ;;
      if negb ok then ret 1%Z
      else
        project_path <- match path with
                        | None => c <- Path_cwd ;; ret (Some (path_div c name))
                        | Some p => ret (Some p)
                        end ;;
        project_path <- match path with
                        | None =>
                            echo ("Project will be created at: "
                                  ++ match project_path with
                                     | Some p => path_str p
                                     | None => "None"
                                     end)%string ;;
                            yes <- click_confirm "Is this correct?" ;;
                            if negb yes then
                              s <- click_prompt "Enter the correct path" ;;
                              ret (Some (Path_of s))
                            else ret project_path
                        | Some _ => ret project_path
                        end ;;
        match project_path with
        | None =>
            echo_err "❌ Error: Invalid path. Project creation aborted." ;;
            ret 1%Z
        | Some project_path =>
            create_project project_path name claudeapp ;;
            ret 0%Z
        end
  end.

(** [@click.command()]: calling the command runs the function above as
    its callback, in click's standalone mode.  The value the callback
    returns is dropped and the process ends through [ctx.exit()], with
    status 0; [click.Abort] is reported and ends the process with status
    1; [sys.exit] and the other exceptions pass through. *)
Definition click_command (callback : M Z) : M Z :=
  fun w =>
    match callback w with
    | (Ret _, w') => (Exit 0, w')
    | (Raise Abort, w') => (Exit 1, set_stderr (stderr w' ++ ["Aborted!"]) w')
    | r => r
    end.

Definition main_command (path : option Path) (name : option string) (claudeapp : bool)
  : M Z :=
  click_command (main path name claudeapp).

(** ** The name validator *)

(** Propositional steps that leave the library functions of the section
    out of the proof. *)
Ltac tidy :=
  try clear json_loads; try clear json_dumps; try clear path_str;
  try clear Path_of; try clear exn_str.
Ltac taut := tidy; tauto.

(** The rules of the specification, in its own words: the name is not
    empty, holds no whitespace, is made of ASCII letters, digits,
    underscores, hyphens and periods, and has none of the last three at
    either end. *)
Definition In_str (c : ascii) (s : string) : Prop := In c (list_ascii_of_string s).

Definition starts_with (c : ascii) (s : string) : Prop :=
  exists rest, s = String c rest.

Definition ends_with (c : ascii) (s : string) : Prop :=
  exists front, s = (front ++ String c EmptyString)%string.

Definition separator (c : ascii) : Prop :=
  c = "_"%char \/ c = "-"%char \/ c = "."%char.

Definition name_rules (name : string) : Prop :=
  name <> "" /\
  (forall c, In_str c name -> PyStr.isspace c = false) /\
  (forall c, In_str c name ->
             PyStr.isascii c = true /\ (PyStr.isalnum c = true \/ separator c)) /\
  (forall c, separator c -> ~ starts_with c name /\ ~ ends_with c name).

Lemma all_spec (p : ascii -> bool) (s : string) :
  PyStr.all p s = true <-> (forall c, In_str c s -> p c = true).
Proof.
  unfold In_str. induction s as [|a s IH]; simpl.
  - split; [intros _ c []|reflexivity].
  - rewrite andb_true_iff, IH. split.
    + intros [Ha Hs] c [<-|Hc]; auto.
    + intros H. split; [apply H; now left|intros c Hc; apply H; now right].
Qed.

Lemma prefix_char (c : ascii) (s : string) :
  String.prefix (String c EmptyString) s = true <-> starts_with c s.
Proof.
  unfold starts_with. destruct s as [|a s]; simpl.
  - split; [discriminate|intros [r Hr]; discriminate].
  - destruct (ascii_dec c a) as [ -> | Hne ].
    + split; [intros _; now exists s|intros _; now destruct s].
    + split; [discriminate|intros [r Hr]; congruence].
Qed.

Lemma contains_char (c : ascii) (s : string) :
  PyStr.contains (String c EmptyString) s = true <-> In_str c s.
Proof.
  unfold In_str. induction s as [|a s IH].
  - simpl. split; [discriminate|intros []].
  - cbn [PyStr.contains list_ascii_of_string In].
    rewrite orb_true_iff, IH, prefix_char. split.
    + intros [[r Hr]|H]; [left; congruence|now right].
    + intros [ -> | H ]; [left; now exists s|now right].
Qed.

Lemma endswith_char (c : ascii) (s : string) :
  PyStr.endswith (String c EmptyString) s = true <-> ends_with c s.
Proof.
  unfold ends_with. induction s as [|a s IH].
  - simpl. split; [discriminate|intros [[|b f] Hf]; discriminate].
  - cbn [PyStr.endswith]. rewrite orb_true_iff, IH, String.eqb_eq. split.
    + intros [H|[f Hf]].
      * exists EmptyString. exact H.
      * exists (String a f). simpl. now rewrite Hf.
    + intros [[|b f] Hf]; simpl in Hf.
      * now left.
      * right. exists f. congruence.
Qed.

(** A character the validator lets through is not whitespace. *)
Lemma allowed_not_space (c : ascii) :
  PyStr.isascii c && (PyStr.isalnum c || PyStr.char_in c "_-.") = true ->
  PyStr.isspace c = false.
Proof.
  destruct c as [[] [] [] [] [] [] [] []]; vm_compute; congruence.
Qed.

Lemma char_in_separators (c : ascii) :
  PyStr.char_in c "_-." = true <-> separator c.
Proof.
  unfold separator. simpl. rewrite !orb_true_iff, !Ascii.eqb_eq. tidy; intuition congruence.
Qed.

Lemma startswith_any_separator (s : string) :
  PyStr.startswith_any ["_"; "-"; "."] s = false <->
  (forall c, separator c -> ~ starts_with c s).
Proof.
  unfold PyStr.startswith_any, PyStr.startswith, separator. simpl.
  rewrite !orb_false_iff. split.
  - intros (H1 & H2 & H3 & _) c [ -> | [ -> | -> ] ] Hs; apply prefix_char in Hs; congruence.
  - intros H. repeat split;
      match goal with
      | |- String.prefix (String ?c _) _ = false =>
          destruct (String.prefix (String c EmptyString) s) eqn:E; [|reflexivity];
          apply prefix_char in E; exfalso; apply (H c); auto
      end.
Qed.

Lemma endswith_any_separator (s : string) :
  PyStr.endswith_any ["_"; "-"; "."] s = false <->
  (forall c, separator c -> ~ ends_with c s).
Proof.
  unfold PyStr.endswith_any, separator. simpl.
  rewrite !orb_false_iff. split.
  - intros (H1 & H2 & H3 & _) c [ -> | [ -> | -> ] ] Hs; apply endswith_char in Hs; congruence.
  - intros H. repeat split;
      match goal with
      | |- PyStr.endswith (String ?c _) _ = false =>
          destruct (PyStr.endswith (String c EmptyString) s) eqn:E; [|reflexivity];
          apply endswith_char in E; exfalso; apply (H c); auto
      end.
Qed.

(** The boolean the validator answers with. *)
Definition name_ok (name : string) : bool :=
  negb (String.eqb name "") &&
  negb (PyStr.contains " " name) &&
  PyStr.all (fun c => PyStr.isascii c && (PyStr.isalnum c || PyStr.char_in c "_-.")) name &&
  negb (PyStr.startswith_any ["_"; "-"; "."] name || PyStr.endswith_any ["_"; "-"; "."] name).

Lemma check_package_name_runs (name : string) (w : World) :
  exists msgs,
    check_package_name name w = (Ret (name_ok name), set_stderr (stderr w ++ msgs) w) /\
    (name_ok name = true -> msgs = []).
Proof.
  unfold check_package_name, name_ok.
  destruct (String.eqb name "");
    [eexists [_]; split; [reflexivity|discriminate]|].
  destruct (PyStr.contains " " name);
    [eexists [_]; split; [reflexivity|discriminate]|].
  destruct (PyStr.all _ name);
    [|eexists [_]; split; [reflexivity|discriminate]].
  destruct (PyStr.startswith_any _ name || PyStr.endswith_any _ name);
    [eexists [_]; split; [reflexivity|discriminate]|].
  exists []. split; [|reflexivity].
  cbn [negb andb]. unfold ret. rewrite app_nil_r. destruct w; reflexivity.
Qed.

Lemma name_ok_rules (name : string) : name_ok name = true <-> name_rules name.
Proof.
  unfold name_ok, name_rules.
  rewrite !andb_true_iff, !negb_true_iff, orb_false_iff, all_spec.
  rewrite startswith_any_separator, endswith_any_separator.
  split.
  - intros [[[Hne Hsp] Hall] [Hst Hen]]. repeat split.
    + intros ->. discriminate.
    + intros c Hc. apply allowed_not_space. now apply Hall.
    + specialize (Hall c H). apply andb_true_iff in Hall. taut.
    + specialize (Hall c H). apply andb_true_iff in Hall. destruct Hall as [_ Hall].
      apply orb_true_iff in Hall. rewrite char_in_separators in Hall. exact Hall.
    + now apply Hst.
    + now apply Hen.
  - intros (Hne & Hsp & Hall & Hedge). repeat split.
    + destruct (String.eqb_spec name ""); congruence.
    + destruct (PyStr.contains " " name) eqn:E; [|reflexivity].
      apply contains_char in E. apply Hsp in E. discriminate.
    + intros c Hc. destruct (Hall c Hc) as [Ha Hb].
      cbv beta. rewrite Ha. cbn [andb]. rewrite orb_true_iff, char_in_separators. exact Hb.
    + intros c Hc. now apply Hedge.
    + intros c Hc. now apply Hedge.
Qed.

(** C1.  [check_package_name] always answers, and it answers [True]
    exactly for the names that are not empty, hold no whitespace, consist
    of ASCII letters, digits, underscores, hyphens and periods, and have
    none of the latter three at either end.  In particular [my-project]
    and [my_project.v2] are accepted, and [-bad], [bad-], [my project]
    and the empty name are rejected. *)
Theorem check_package_name_spec :
  (forall name w, exists b w',
      check_package_name name w = (Ret b, w') /\ (b = true <-> name_rules name)) /\
  (forall w, fst (check_package_name "my-project" w) = Ret true) /\
  (forall w, fst (check_package_name "my_project.v2" w) = Ret true) /\
  (forall w, fst (check_package_name "-bad" w) = Ret false) /\
  (forall w, fst (check_package_name "bad-" w) = Ret false) /\
  (forall w, fst (check_package_name "my project" w) = Ret false) /\
  (forall w, fst (check_package_name "" w) = Ret false).
Proof.
  split.
  - intros name w. destruct (check_package_name_runs name w) as (msgs & H & _).
    eexists _, _. split; [exact H|apply name_ok_rules].
  - repeat split; intros w; reflexivity.
Qed.

(** ** The version check *)











(** The tool is on the search path and, run with [args] in [dir], ends
    with [code], prints [out] and leaves the file system [root]. *)
Definition uv_answers (w : World) (args dir : list string)
                      (code : Z) (out : string) (root : node) : Prop :=
  exists run,
    uv w = Some run /\
    FS.is_dir (FS.lookup (fs w) dir) = true /\
    run args dir (fs w) = (code, out, root).


Lemma check_uv_version_missing (required : string) (w : World) :
  uv w = None -> check_uv_version required w = (Ret None, w).
Proof.
  intros H. unfold check_uv_version, try_except, bind, subprocess_run. cbn. now rewrite H.
Qed.






(** ** The desktop configuration *)

Arguments node_at : simpl never.
Arguments resolve : simpl never.

Section DictFacts.
Context {V : Type}.
Implicit Types (d : list (string * V)) (k : string) (v : V).

Lemma get_set_same d k v : Dict.get k (Dict.set k v d) = Some v.
Proof.
  induction d as [|[k' v'] d IH]; simpl.
  - now rewrite String.eqb_refl.
  - destruct (String.eqb k k') eqn:E; simpl; [now rewrite String.eqb_refl|now rewrite E].
Qed.

Lemma get_set_other d k k' v : k <> k' -> Dict.get k' (Dict.set k v d) = Dict.get k' d.
Proof.
  intros Hne. induction d as [|[k0 v0] d IH]; simpl.
  - destruct (String.eqb_spec k' k); congruence.
  - destruct (String.eqb_spec k k0); simpl.
    + subst. destruct (String.eqb_spec k' k0); congruence.
    + destruct (String.eqb_spec k' k0); congruence.
Qed.

Lemma set_set d k v v' : Dict.set k v (Dict.set k v' d) = Dict.set k v d.
Proof.
  induction d as [|[k0 v0] d IH]; simpl.
  - now rewrite String.eqb_refl.
  - destruct (String.eqb k k0) eqn:E; simpl.
    + now rewrite String.eqb_refl.
    + now rewrite E, IH.
Qed.

Lemma mem_get d k : Dict.mem k d = false <-> Dict.get k d = None.
Proof. unfold Dict.mem. destruct (Dict.get k d); split; congruence. Qed.


(** A new key goes to the end and leaves the entries before it alone. *)
Lemma set_fresh d k v : Dict.mem k d = false -> Dict.set k v d = d ++ [(k, v)].
Proof.
  rewrite mem_get. induction d as [|[k0 v0] d IH]; simpl; intros H.
  - reflexivity.
  - destruct (String.eqb k k0); [discriminate|]. now rewrite IH.
Qed.

End DictFacts.

Lemma normalize_snoc (l acc : list string) (c : string) :
  c <> ".." -> c <> "." -> normalize acc (l ++ [c]) = normalize acc l ++ [c].
Proof.
  intros H1 H2. revert acc. induction l as [|x l IH]; intros acc; simpl.
  - destruct (String.eqb_spec c ".."); [contradiction|].
    destruct (String.eqb_spec c "."); [contradiction|]. reflexivity.
  - destruct (String.eqb x ".."); [apply IH|]. destruct (String.eqb x "."); apply IH.
Qed.

Lemma put_lookup (p : list string) :
  forall r r' n, FS.put r p n = Some r' -> FS.lookup r' p = Some n.
Proof.
  induction p as [|x q IH]; intros r r' n H; simpl in H.
  - inversion H. reflexivity.
  - destruct r as [|es]; [discriminate|].
    destruct (Dict.get x es) as [c|] eqn:E.
    + destruct (FS.put c q n) as [c'|] eqn:Ep; [|discriminate].
      inversion H; subst. simpl. rewrite get_set_same. eapply IH, Ep.
    + destruct q; [|discriminate]. inversion H; subst. simpl.
      rewrite <- (set_fresh es x n) by (now apply mem_get).
      now rewrite get_set_same.
Qed.

(** Writing below a directory keeps the directory. *)
Lemma put_keeps_dir (p : list string) :
  forall r r' x n,
    FS.put r (p ++ [x]) n = Some r' ->
    FS.is_dir (FS.lookup r p) = true -> FS.is_dir (FS.lookup r' p) = true.
Proof.
  induction p as [|y q IH]; intros r r' x n H Hd; simpl in *.
  - destruct r as [|es]; [discriminate|].
    destruct (Dict.get x es); [destruct n0; inversion H|inversion H]; reflexivity.
  - destruct r as [|es]; [discriminate|].
    destruct (Dict.get y es) as [c|] eqn:E.
    + destruct (FS.put c (q ++ [x]) n) as [c'|] eqn:Ep; [|discriminate].
      inversion H; subst. simpl. rewrite get_set_same. eapply IH; eauto.
    + discriminate.
Qed.

Definition config_file (dir : Path) : Path := path_div dir "claude_desktop_config.json".

(** [config["mcpServers"]] once the program has made sure it is there. *)
Definition servers_of (cfg : list (string * json)) : json :=
  match Dict.get "mcpServers" cfg with
  | Some v => v
  | None => JObj []
  end.

(** The configuration after [name] was added to the servers [srv]. *)
Definition with_server (cfg srv : list (string * json)) (name : string) (p : Path) : json :=
  JObj (Dict.set "mcpServers" (JObj (Dict.set name (server_entry name p) srv)) cfg).

Definition warning_lines (name : string) (cf : Path) : list string :=
  [("⚠️ Warning: " ++ name ++ " already exists in Claude.app configuration")%string;
   ("Settings file location: " ++ path_str cf)%string].

Definition failure_lines (cf : Path) : list string :=
  ["❌ Failed to update Claude.app configuration";
   ("Settings file location: " ++ path_str cf)%string].

Definition added_lines (name : string) (cf : Path) : list string :=
  [("✅ Added " ++ name ++ " to Claude.app configuration")%string;
   ("Settings file location: " ++ path_str cf)%string].

(** Two outcomes are equal when the worlds differ only in how the lists
    written so far are bracketed. *)
Ltac same_world :=
  unfold echo, echo_err, ret, set_stderr, set_stdout, set_fs, set_stdin; cbn;
  rewrite <- ?app_assoc; reflexivity.

(** The three ways the [try] block can end: an exception that leaves the
    world as it was; the warning, when the name is found among the
    servers; the file written with the new entry. *)
Lemma update_claude_config_body_cases (cf : Path) (name : string) (p : Path) (w : World) :
  (exists e, update_claude_config_body cf name p w = (Raise e, w)) \/
  (exists wr text cfg,
      node_at w cf = Some (File wr text) /\
      json_loads text = Some (JObj cfg) /\
      py_contains name (servers_of cfg) = Some true /\
      update_claude_config_body cf name p w
      = (Ret false, set_stderr (stderr w ++ warning_lines name cf) w)) \/
  (exists text cfg srv root,
      node_at w cf = Some (File true text) /\
      json_loads text = Some (JObj cfg) /\
      servers_of cfg = JObj srv /\
      Dict.mem name srv = false /\
      FS.put (fs w) (resolve (cwd w) cf) (File true (json_dumps (with_server cfg srv name p)))
      = Some root /\
      update_claude_config_body cf name p w
      = (Ret true, set_stdout (stdout w ++ added_lines name cf) (set_fs root w))).
Proof.
  unfold update_claude_config_body, bind, read_text.
  destruct (node_at w cf) as [[wr text|es]|] eqn:Hn; [|left; eexists; reflexivity|left; eexists; reflexivity].
  destruct (json_loads text) as [config|] eqn:Hl; [|left; eexists; reflexivity].
  destruct config as [| | | | |items|cfg];
    try (left; eexists; reflexivity).
  - (* a string: either branch of the membership test ends in TypeError *)
    cbn. destruct (PyStr.contains "mcpServers" s); cbn; left; eexists; reflexivity.
  - cbn. destruct (existsb _ items); cbn; left; eexists; reflexivity.
  - cbn [ret py_in py_contains]. unfold servers_of.
    destruct (Dict.get "mcpServers" cfg) as [servers|] eqn:Hs.
    + assert (Hm : Dict.mem "mcpServers" cfg = true) by (unfold Dict.mem; now rewrite Hs).
      rewrite !Hm. cbn. rewrite !Hs.
      destruct servers as [| | | |s|items|srv]; cbn; try (left; eexists; reflexivity).
      * destruct (PyStr.contains name s) eqn:Hc; cbn; [|left; eexists; reflexivity].
        right; left. exists wr, text, cfg. rewrite ?Hs. cbn. rewrite ?Hc.
           repeat split; auto; same_world.
      * destruct (existsb _ items) eqn:Hc; cbn; [|left; eexists; reflexivity].
        right; left. exists wr, text, cfg. rewrite ?Hs. cbn. rewrite ?Hc.
           repeat split; auto; same_world.
      * destruct (Dict.mem name srv) eqn:Hc; cbn.
        -- right; left. exists wr, text, cfg. rewrite ?Hs. cbn. rewrite ?Hc.
           repeat split; auto; same_world.
        -- unfold write_text. rewrite Hn.
           destruct wr; [|left; eexists; reflexivity].
           destruct (FS.put _ _ _) as [root|] eqn:Hp; [|left; eexists; reflexivity].
           right; right. exists text, cfg, srv, root. rewrite ?Hs.
           unfold with_server. repeat split; auto; same_world.
    + assert (Hm : Dict.mem "mcpServers" cfg = false) by (unfold Dict.mem; now rewrite Hs).
      rewrite !Hm. cbn. rewrite !get_set_same. cbn.
      unfold write_text. rewrite Hn.
      destruct wr; [|left; eexists; reflexivity].
      rewrite !set_set.
      destruct (FS.put _ _ _) as [root|] eqn:Hp; [|left; eexists; reflexivity].
      right; right. exists text, cfg, [], root. rewrite ?Hs.
      unfold with_server. repeat split; auto; same_world.
Qed.

Lemma get_claude_config_path_total (w : World) :
  exists d, get_claude_config_path w = (Ret d, w).
Proof.
  unfold get_claude_config_path, bind, get_world, Path_home, path_exists.
  destruct (String.eqb (sys_platform w) "win32").
  - destruct (node_at w _); eexists; reflexivity.
  - destruct (String.eqb (sys_platform w) "darwin"); [|eexists; reflexivity].
    destruct (node_at w _); eexists; reflexivity.
Qed.


(** The directory the platform keeps the configuration in. *)
Definition claude_dir (w : World) : option Path :=
  if String.eqb (sys_platform w) "win32" then
    Some (path_div (path_div (path_div (mkPath true (home w)) "AppData") "Roaming") "Claude")
  else if String.eqb (sys_platform w) "darwin" then
    Some (path_div (path_div (path_div (mkPath true (home w)) "Library")
                             "Application Support") "Claude")
  else None.

Lemma get_claude_config_path_spec (w : World) :
  get_claude_config_path w =
    (Ret (match claude_dir w with
          | Some d => match node_at w d with Some _ => Some d | None => None end
          | None => None
          end), w).
Proof.
  unfold get_claude_config_path, claude_dir, bind, get_world, Path_home, path_exists.
  destruct (String.eqb (sys_platform w) "win32").
  - destruct (node_at w _); reflexivity.
  - destruct (String.eqb (sys_platform w) "darwin"); [|reflexivity].
    destruct (node_at w _); reflexivity.
Qed.


(** How [update_claude_config] can end: silently, when there is no
    configuration to edit; with the failure report, when the [try] block
    raised; with the warning; or with the entry written. *)
Lemma update_claude_config_cases (name : string) (p : Path) (w : World) :
  (update_claude_config name p w = (Ret false, w) /\
   (get_claude_config_path w = (Ret None, w) \/
    exists dir, get_claude_config_path w = (Ret (Some dir), w) /\
                node_at w (config_file dir) = None)) \/
  (exists dir e,
      get_claude_config_path w = (Ret (Some dir), w) /\
      update_claude_config_body (config_file dir) name p w = (Raise e, w) /\
      update_claude_config name p w
      = (Ret false, set_stderr (stderr w ++ failure_lines (config_file dir)) w)) \/
  (exists dir wr text cfg,
      get_claude_config_path w = (Ret (Some dir), w) /\
      node_at w (config_file dir) = Some (File wr text) /\
      json_loads text = Some (JObj cfg) /\
      py_contains name (servers_of cfg) = Some true /\
      update_claude_config name p w
      = (Ret false, set_stderr (stderr w ++ warning_lines name (config_file dir)) w)) \/
  (exists dir text cfg srv root,
      get_claude_config_path w = (Ret (Some dir), w) /\
      node_at w (config_file dir) = Some (File true text) /\
      json_loads text = Some (JObj cfg) /\
      servers_of cfg = JObj srv /\
      Dict.mem name srv = false /\
      FS.put (fs w) (resolve (cwd w) (config_file dir))
             (File true (json_dumps (with_server cfg srv name p))) = Some root /\
      update_claude_config name p w
      = (Ret true, set_stdout (stdout w ++ added_lines name (config_file dir)) (set_fs root w))).
Proof.
  unfold update_claude_config, bind.
  destruct (get_claude_config_path_total w) as [[dir|] Hd]; rewrite Hd.
  2:{ left. split; [reflexivity|now left]. }
  unfold path_exists. fold (config_file dir).
  destruct (node_at w (config_file dir)) as [n|] eqn:Hn; cbn [negb].
  2:{ left. split; [reflexivity|right; eauto]. }
  unfold try_except.
  destruct (update_claude_config_body_cases (config_file dir) name p w)
    as [[e He]|[(wr & text & cfg & H1 & H2 & H3 & He)|(text & cfg & srv & root & H1 & H2 & H3 & H4 & H5 & He)]];
    rewrite He.
  - right; left. exists dir, e. repeat split; auto. same_world.
  - right; right; left. exists dir, wr, text, cfg. repeat split; auto.
  - right; right; right. exists dir, text, cfg, srv, root. repeat split; auto.
Qed.






Lemma lookup_snoc_dir (p : list string) :
  forall r x n, FS.lookup r (p ++ [x]) = Some n -> FS.is_dir (FS.lookup r p) = true.
Proof.
  induction p as [|y q IH]; intros r x n H; simpl in *.
  - destruct r; [discriminate|reflexivity].
  - destruct r as [|es]; [discriminate|].
    destruct (Dict.get y es); [eapply IH, H|discriminate].
Qed.

Lemma resolve_config_file (c : list string) (d : Path) :
  resolve c (config_file d) = resolve c d ++ ["claude_desktop_config.json"].
Proof.
  unfold resolve, config_file, path_div. cbn [is_abs parts].
  destruct (is_abs d); apply normalize_snoc; discriminate.
Qed.

Lemma get_claude_config_path_inv (w : World) (d : Path) :
  get_claude_config_path w = (Ret (Some d), w) ->
  claude_dir w = Some d /\ node_at w d <> None.
Proof.
  rewrite get_claude_config_path_spec. intros H.
  destruct (claude_dir w) as [d'|]; [|discriminate].
  destruct (node_at w d') eqn:E; inversion H; subst. split; congruence.
Qed.

(** After the entry was written the configuration is still where the
    program looks for it, and holds the text that was written. *)
Lemma written_world (w : World) (d : Path) (n : node) (text : string) (root : node)
                    (out : list string) :
  get_claude_config_path w = (Ret (Some d), w) ->
  node_at w (config_file d) = Some n ->
  FS.put (fs w) (resolve (cwd w) (config_file d)) (File true text) = Some root ->
  let w1 := set_stdout out (set_fs root w) in
  get_claude_config_path w1 = (Ret (Some d), w1) /\
  node_at w1 (config_file d) = Some (File true text).
Proof.
  intros Hd Hn Hp w1. destruct (get_claude_config_path_inv w d Hd) as [Hc _].
  assert (Hfile : node_at w1 (config_file d) = Some (File true text)).
  { unfold node_at, w1. cbn. eapply put_lookup, Hp. }
  split; [|exact Hfile].
  rewrite get_claude_config_path_spec.
  replace (claude_dir w1) with (claude_dir w) by reflexivity. rewrite Hc.
  assert (Hdir : FS.is_dir (node_at w1 d) = true).
  { unfold node_at, w1. cbn. unfold node_at in Hn.
    rewrite resolve_config_file in Hn, Hp.
    eapply put_keeps_dir; [exact Hp|]. eapply lookup_snoc_dir, Hn. }
  destruct (node_at w1 d); [reflexivity|discriminate].
Qed.


Lemma update_claude_config_success (name : string) (p : Path) (w w1 : World) (d : Path)
                                   (wr : bool) (text : string)
                                   (cfg srv : list (string * json)) :
  get_claude_config_path w = (Ret (Some d), w) ->
  node_at w (config_file d) = Some (File wr text) ->
  json_loads text = Some (JObj cfg) ->
  servers_of cfg = JObj srv ->
  update_claude_config name p w = (Ret true, w1) ->
  Dict.mem name srv = false /\
  exists root,
    FS.put (fs w) (resolve (cwd w) (config_file d))
           (File true (json_dumps (with_server cfg srv name p))) = Some root /\
    w1 = set_stdout (stdout w ++ added_lines name (config_file d)) (set_fs root w).
Proof.
  intros Hd Hn Hl Hs Hu.
  destruct (update_claude_config_cases name p w)
    as [[E _]|[(? & ? & _ & _ & E)|[(? & ? & ? & ? & _ & _ & _ & _ & E)|
        (d' & text' & cfg' & srv' & root & H1 & H2 & H3 & H4 & H5 & H6 & E)]]];
    rewrite E in Hu; try discriminate.
  rewrite Hd in H1. inversion H1; subst d'.
  rewrite Hn in H2. inversion H2; subst text' wr.
  rewrite Hl in H3. inversion H3; subst cfg'.
  rewrite Hs in H4. inversion H4; subst srv'.
  split; [exact H5|]. exists root. split; [exact H6|]. now inversion Hu.
Qed.


(** C3.  After a registration that succeeded on a configuration file
    holding the JSON object [cfg], with [name] not among its servers
    [srv], the file read again gives the object [cfg] with
    [mcpServers] set to [srv] followed by a single new entry: [name]
    with the command [uv] and the arguments [--directory], the path as
    text, [run] and the name.  The other keys of the object and the
    servers that were there keep their values.  (What [json.loads] gives
    on the text [json.dumps] wrote is the premise on the library.) *)
Theorem update_claude_config_round_trip
  (name : string) (p : Path) (w w1 : World) (d : Path) (wr : bool) (text : string)
  (cfg srv : list (string * json)) :
  get_claude_config_path w = (Ret (Some d), w) ->
  node_at w (config_file d) = Some (File wr text) ->
  json_loads text = Some (JObj cfg) ->
  servers_of cfg = JObj srv ->
  Dict.mem name srv = false ->
  update_claude_config name p w = (Ret true, w1) ->
  let entry := JObj [("command", JStr "uv");
                     ("args", JArr [JStr "--directory"; JStr (path_str p);
                                    JStr "run"; JStr name])] in
  let srv' := srv ++ [(name, entry)] in
  let cfg' := Dict.set "mcpServers" (JObj srv') cfg in
  json_loads (json_dumps (JObj cfg')) = Some (JObj cfg') ->
  (text' <- read_text (config_file d) ;; ret (json_loads text')) w1
  = (Ret (Some (JObj cfg')), w1) /\
  Dict.get "mcpServers" cfg' = Some (JObj srv') /\
  (forall k, k <> "mcpServers" -> Dict.get k cfg' = Dict.get k cfg) /\
  Dict.get name srv' = Some entry /\
  Dict.get name srv = None /\
  (forall k, k <> name -> Dict.get k srv' = Dict.get k srv) /\
  length srv' = S (length srv).
Proof.
  intros Hd Hn Hl Hs Hm Hu entry srv' cfg' Hrt.
  destruct (update_claude_config_success _ _ _ _ _ _ _ _ _ Hd Hn Hl Hs Hu)
    as (_ & root & Hp & ->).
  destruct (written_world w d _ _ root (stdout w ++ added_lines name (config_file d))
                          Hd Hn Hp) as [_ Hn1].
  assert (Hsrv : Dict.set name (server_entry name p) srv = srv')
    by (now apply set_fresh).
  unfold with_server in Hn1. rewrite Hsrv in Hn1. fold cfg' in Hn1.
  repeat apply conj.
  - unfold bind, read_text. rewrite Hn1. unfold ret. now rewrite Hrt.
  - apply get_set_same.
  - intros k Hk. apply get_set_other. congruence.
  - unfold srv'. rewrite <- (set_fresh srv name entry Hm). apply get_set_same.
  - now apply mem_get.
  - intros k Hk. unfold srv'. rewrite <- (set_fresh srv name entry Hm).
    apply get_set_other. congruence.
  - unfold srv'. rewrite length_app. simpl. lia.
Qed.

(** ** The template *)



















Lemma resolve_div (c : list string) (p : Path) (x : string) :
  x <> ".." -> x <> "." -> resolve c (path_div p x) = resolve c p ++ [x].
Proof.
  intros H1 H2. unfold resolve, path_div. cbn [is_abs parts].
  destruct (is_abs p); now apply normalize_snoc.
Qed.


(** [Path(__file__).parent / "template"] *)
Definition template_dir (w : World) : Path :=
  path_div (path_parent (mkPath true (module_file w))) "template".




Definition copy_failed (e : exn) : string :=
  ("❌ Error: Failed to copy template files: " ++ exn_str e)%string.

Lemma copy_template_runs (path : Path) (name : string) (w : World) (f : Path) :
  glob_init w path = Some f ->
  copy_template path name w =
  match copytree (template_dir w) (path_parent f) w with
  | (Ret _, w1) => (Ret tt, w1)
  | (Exit c, w1) => (Exit c, w1)
  | (Raise e, w1) => (Exit 1, set_stderr (stderr w1 ++ [copy_failed e]) w1)
  end.
Proof.
  intros H. unfold copy_template, bind, get_world. rewrite H. unfold try_except.
  fold (template_dir w).
  destruct (copytree (template_dir w) (path_parent f) w) as [[[]|c|e] w1]; reflexivity.
Qed.




(** ** The run as a whole *)

(** The last line of the summary [create_project] prints. *)
Definition summary_last : string := "   uv sync --dev --all-extras".

(** A statement is quiet when it keeps the working directory, leaves
    the process with status 1 if it leaves it at all, and only adds
    lines other than the last line of the summary to the output. *)
Definition quiet {A : Type} (m : M A) : Prop :=
  forall w r w',
    m w = (r, w') ->
    cwd w' = cwd w /\
    (forall c, r = Exit c -> c = 1%Z) /\
    exists new, stdout w' = stdout w ++ new /\ ~ In summary_last new.

Lemma quiet_silent {A : Type} (m : M A) :
  (forall w r w', m w = (r, w') ->
                  cwd w' = cwd w /\ stdout w' = stdout w /\ forall c, r <> Exit c) ->
  quiet m.
Proof.
  intros H w r w' Hm. destruct (H w r w' Hm) as (H1 & H2 & H3). repeat split; auto.
  - intros c ->. now destruct (H3 c).
  - exists []. rewrite app_nil_r. auto.
Qed.

Lemma quiet_ret {A : Type} (a : A) : quiet (ret a).
Proof. apply quiet_silent. intros w r w' H. inversion H. repeat split; congruence. Qed.

Lemma quiet_raise {A : Type} (e : exn) : quiet (@raise A e).
Proof. apply quiet_silent. intros w r w' H. inversion H. repeat split; congruence. Qed.

Lemma quiet_exit {A : Type} : quiet (@sys_exit A 1).
Proof.
  intros w r w' H. inversion H; subst. repeat split; [congruence|].
  exists []. rewrite app_nil_r. auto.
Qed.

Lemma quiet_bind {A B : Type} (m : M A) (k : A -> M B) :
  quiet m -> (forall a, quiet (k a)) -> quiet (bind m k).
Proof.
  intros Hm Hk w r w' H. unfold bind in H.
  destruct (m w) as [[a|c|e] w1] eqn:E; destruct (Hm _ _ _ E) as (C1 & X1 & n1 & O1 & N1).
  - destruct (Hk a _ _ _ H) as (C2 & X2 & n2 & O2 & N2). repeat split; [congruence|exact X2|].
    exists (n1 ++ n2). rewrite O2, O1, app_assoc. split; [reflexivity|].
    rewrite in_app_iff. taut.
  - inversion H; subst. repeat split; [assumption| |eauto].
    intros c' Hc. inversion Hc; subst. now apply X1.
  - inversion H; subst. repeat split; [assumption|discriminate|eauto].
Qed.

Lemma quiet_try {A : Type} (body : M A) (h : exn -> option (M A)) :
  quiet body -> (forall e k, h e = Some k -> quiet k) -> quiet (try_except body h).
Proof.
  intros Hb Hh w r w' H. unfold try_except in H.
  destruct (body w) as [[a|c|e] w1] eqn:E; destruct (Hb _ _ _ E) as (C1 & X1 & n1 & O1 & N1).
  - inversion H; subst. repeat split; [assumption|discriminate|eauto].
  - inversion H; subst. repeat split; [assumption| |eauto].
    intros c' Hc. inversion Hc; subst. now apply X1.
  - destruct (h e) as [k|] eqn:Ek.
    + destruct (Hh e k Ek _ _ _ H) as (C2 & X2 & n2 & O2 & N2).
      repeat split; [congruence|exact X2|].
      exists (n1 ++ n2). rewrite O2, O1, app_assoc. split; [reflexivity|].
      rewrite in_app_iff. taut.
    + inversion H; subst. repeat split; [assumption|discriminate|eauto].
Qed.

Lemma quiet_echo (msg : string) : msg <> summary_last -> quiet (echo msg).
Proof.
  intros Hne w r w' H. inversion H; subst. repeat split; [discriminate|].
  exists [msg]. split; [reflexivity|]. intros [E|[]]. congruence.
Qed.

Lemma quiet_echo_err (msg : string) : quiet (echo_err msg).
Proof. apply quiet_silent. intros w r w' H. inversion H. repeat split; congruence. Qed.

Lemma quiet_get_world : quiet get_world.
Proof. apply quiet_silent. intros w r w' H. inversion H. repeat split; congruence. Qed.

Lemma quiet_Path_home : quiet Path_home.
Proof. apply quiet_silent. intros w r w' H. inversion H. repeat split; congruence. Qed.

Lemma quiet_Path_cwd : quiet Path_cwd.
Proof. apply quiet_silent. intros w r w' H. inversion H. repeat split; congruence. Qed.

Lemma quiet_path_exists (p : Path) : quiet (path_exists p).
Proof. apply quiet_silent. intros w r w' H. inversion H. repeat split; congruence. Qed.

Lemma quiet_read_text (p : Path) : quiet (read_text p).
Proof.
  apply quiet_silent. intros w r w' H. unfold read_text in H.
  destruct (node_at w p) as [[|]|]; inversion H; repeat split; congruence.
Qed.

Lemma quiet_write_text (p : Path) (text : string) : quiet (write_text p text).
Proof.
  apply quiet_silent. intros w r w' H. unfold write_text in H.
  destruct (node_at w p) as [[[]|]|]; try destruct (FS.put _ _ _);
    inversion H; repeat split; congruence.
Qed.

Lemma quiet_mkdir_parents (p : Path) : quiet (mkdir_parents p).
Proof.
  apply quiet_silent. intros w r w' H. unfold mkdir_parents in H.
  destruct (FS.makedirs _ _); inversion H; repeat split; congruence.
Qed.

Lemma quiet_subprocess_run (cmd : list string) (dir : option Path) :
  quiet (subprocess_run cmd dir).
Proof.
  apply quiet_silent. intros w r w' H. unfold subprocess_run in H.
  destruct cmd as [|exe args]; [inversion H; repeat split; congruence|].
  destruct (String.eqb exe "uv"); [|inversion H; repeat split; congruence].
  destruct (uv w) as [run|]; [|inversion H; repeat split; congruence].
  destruct (FS.is_dir _); [|inversion H; repeat split; congruence].
  destruct (run args _ (fs w)) as [[code out] root].
  destruct (Z.eqb code 0); inversion H; repeat split; congruence.
Qed.

Lemma quiet_copytree (src dst : Path) : quiet (copytree src dst).
Proof.
  apply quiet_silent. intros w r w' H. unfold copytree in H.
  destruct (Shutil.copytree _ _) as [[entries ok]|]; [|inversion H; repeat split; congruence].
  destruct (FS.put _ _ _); [|inversion H; repeat split; congruence].
  destruct ok; inversion H; repeat split; congruence.
Qed.

Lemma prompt_lines_shown (text : string) (lines : list string) :
  forall shown r rest shown',
    prompt_lines text lines shown = (r, rest, shown') ->
    (forall c, r <> Exit c) /\
    exists new, shown' = shown ++ new /\
                forall x, In x new -> x = (text ++ ": ")%string.
Proof.
  induction lines as [|l lines IH]; intros shown r rest shown' H; simpl in H.
  - inversion H; subst. split; [discriminate|]. eexists. split; [reflexivity|].
    intros x [<-|[]]. reflexivity.
  - destruct (String.eqb l "").
    + destruct (IH _ _ _ _ H) as (Hx & new & -> & Hn). split; [exact Hx|].
      exists ((text ++ ": ")%string :: new). rewrite <- app_assoc. split; [reflexivity|].
      intros x [<-|Hin]; auto.
    + inversion H; subst. split; [discriminate|]. eexists. split; [reflexivity|].
      intros x [<-|[]]. reflexivity.
Qed.

Lemma confirm_lines_shown (text : string) (lines : list string) :
  forall shown r rest shown',
    confirm_lines text lines shown = (r, rest, shown') ->
    (forall c, r <> Exit c) /\
    exists new, shown' = shown ++ new /\
                forall x, In x new ->
                          x = (text ++ " [Y/n]: ")%string \/ x = "Error: invalid input".
Proof.
  induction lines as [|l lines IH]; intros shown r rest shown' H; simpl in H.
  - inversion H; subst. split; [discriminate|]. eexists. split; [reflexivity|].
    intros x [<-|[]]. now left.
  - destruct (_ || _) in H.
    { inversion H; subst. split; [discriminate|]. eexists. split; [reflexivity|].
      intros x [<-|[]]. now left. }
    destruct (_ || _) in H.
    { inversion H; subst. split; [discriminate|]. eexists. split; [reflexivity|].
      intros x [<-|[]]. now left. }
    destruct (String.eqb _ _) in H.
    { inversion H; subst. split; [discriminate|]. eexists. split; [reflexivity|].
      intros x [<-|[]]. now left. }
    destruct (IH _ _ _ _ H) as (Hx & new & -> & Hn). split; [exact Hx|].
    eexists (_ :: _ :: new). rewrite <- app_assoc. split; [reflexivity|].
    intros x [<-|[<-|Hin]]; auto.
Qed.

Lemma quiet_click_prompt (text : string) :
  (text ++ ": ")%string <> summary_last -> quiet (click_prompt text).
Proof.
  intros Hne w r w' H. unfold click_prompt in H.
  destruct (prompt_lines text (stdin w) (stdout w)) as [[r0 rest] shown] eqn:E.
  inversion H; subst. destruct (prompt_lines_shown _ _ _ _ _ _ E) as (Hx & new & -> & Hn).
  repeat split.
  - intros c ->. now destruct (Hx c).
  - exists new. split; [reflexivity|]. intros Hin. apply Hn in Hin. congruence.
Qed.

Lemma quiet_click_confirm (text : string) :
  (text ++ " [Y/n]: ")%string <> summary_last -> quiet (click_confirm text).
Proof.
  intros Hne w r w' H. unfold click_confirm in H.
  destruct (confirm_lines text (stdin w) (stdout w)) as [[r0 rest] shown] eqn:E.
  inversion H; subst. destruct (confirm_lines_shown _ _ _ _ _ _ E) as (Hx & new & -> & Hn).
  repeat split.
  - intros c ->. now destruct (Hx c).
  - exists new. split; [reflexivity|]. intros Hin. apply Hn in Hin.
    destruct Hin as [Hin|Hin]; [congruence|discriminate].
Qed.

Lemma quiet_py_in (k : string) (c : json) : quiet (py_in k c).
Proof. unfold py_in. destruct (py_contains k c); [apply quiet_ret|apply quiet_raise]. Qed.

Lemma quiet_py_getitem (c : json) (k : string) : quiet (py_getitem c k).
Proof.
  unfold py_getitem. destruct c; try apply quiet_raise.
  destruct (Dict.get k fields); [apply quiet_ret|apply quiet_raise].
Qed.

Lemma quiet_py_setitem (c : json) (k : string) (v : json) : quiet (py_setitem c k v).
Proof. unfold py_setitem. destruct c; try apply quiet_raise. apply quiet_ret. Qed.

(** A line that starts differently from the last line of the summary. *)
Ltac not_summary :=
  let H := fresh in
  intros H; unfold summary_last in H; cbn [append] in H; discriminate H.

Ltac quiet_step :=
  match goal with
  | |- quiet (bind _ _) => apply quiet_bind; [|intros ?]
  | |- quiet (ret _) => apply quiet_ret
  | |- quiet (raise _) => apply quiet_raise
  | |- quiet (sys_exit 1) => apply quiet_exit
  | |- quiet (echo_err _) => apply quiet_echo_err
  | |- quiet (echo _) => apply quiet_echo; not_summary
  | |- quiet get_world => apply quiet_get_world
  | |- quiet Path_home => apply quiet_Path_home
  | |- quiet Path_cwd => apply quiet_Path_cwd
  | |- quiet (path_exists _) => apply quiet_path_exists
  | |- quiet (read_text _) => apply quiet_read_text
  | |- quiet (write_text _ _) => apply quiet_write_text
  | |- quiet (mkdir_parents _) => apply quiet_mkdir_parents
  | |- quiet (subprocess_run _ _) => apply quiet_subprocess_run
  | |- quiet (copytree _ _) => apply quiet_copytree
  | |- quiet (click_prompt _) => apply quiet_click_prompt; not_summary
  | |- quiet (click_confirm _) => apply quiet_click_confirm; not_summary
  | |- quiet (py_in _ _) => apply quiet_py_in
  | |- quiet (py_getitem _ _) => apply quiet_py_getitem
  | |- quiet (py_setitem _ _ _) => apply quiet_py_setitem
  | |- quiet (try_except _ _) =>
      apply quiet_try;
      [|let e := fresh "e" in let k := fresh "k" in let E := fresh "E" in
        intros e k E; destruct e; inversion E; subst; clear E]
  | |- quiet (match ?x with _ => _ end) => destruct x
  end.

Lemma quiet_check_uv_version (required : string) : quiet (check_uv_version required).
Proof. unfold check_uv_version. repeat quiet_step. Qed.

Lemma quiet_ensure_uv_installed : quiet ensure_uv_installed.
Proof.
  unfold ensure_uv_installed.
  apply quiet_bind; [apply quiet_check_uv_version|intros ?]. repeat quiet_step.
Qed.

Lemma quiet_get_claude_config_path : quiet get_claude_config_path.
Proof. unfold get_claude_config_path. repeat quiet_step. Qed.

Lemma quiet_has_claude_app : quiet has_claude_app.
Proof.
  unfold has_claude_app.
  apply quiet_bind; [apply quiet_get_claude_config_path|intros ?]. apply quiet_ret.
Qed.

Lemma quiet_update_claude_config (name : string) (p : Path) :
  quiet (update_claude_config name p).
Proof.
  unfold update_claude_config.
  apply quiet_bind; [apply quiet_get_claude_config_path|intros ?].
  unfold update_claude_config_body. repeat quiet_step.
Qed.

Lemma quiet_copy_template (path : Path) (name : string) : quiet (copy_template path name).
Proof. unfold copy_template. repeat quiet_step. Qed.

Lemma quiet_offer_claude_app (path : Path) (name : string) (use_claude : bool) :
  quiet (offer_claude_app path name use_claude).
Proof.
  unfold offer_claude_app. destruct use_claude; [|apply quiet_ret].
  apply quiet_bind; [apply quiet_has_claude_app|intros ?].
  destruct a; [|apply quiet_ret].
  apply quiet_bind; [quiet_step|intros ?].
  destruct a; [|apply quiet_ret].
  apply quiet_bind; [apply quiet_update_claude_config|intros ?]. apply quiet_ret.
Qed.

Lemma quiet_provision (path : Path) (name : string) (use_claude : bool) :
  quiet (provision path name use_claude).
Proof.
  unfold provision.
  apply quiet_bind; [apply quiet_mkdir_parents|intros _].
  apply quiet_bind; [repeat quiet_step|intros _].
  apply quiet_bind; [repeat quiet_step|intros _].
  apply quiet_bind; [apply quiet_copy_template|intros _].
  apply quiet_offer_claude_app.
Qed.

Lemma quiet_check_package_name (name : string) : quiet (check_package_name name).
Proof. unfold check_package_name. repeat quiet_step. Qed.

(** The status the process ends with: the value [main] returns, the
    argument of [sys.exit], or 1 for an exception nobody caught. *)
Definition exit_status (r : outcome Z) : Z :=
  match r with
  | Ret n => n
  | Exit c => c
  | Raise _ => 1%Z
  end.

(** The summary, for the project [name] at the relative path [rel]. *)
Definition summary (name : string) (rel : Path) : list string :=
  [("✅ Created project " ++ name ++ " in " ++ path_str rel)%string;
   "ℹ️ To install dependencies run:";
   ("   cd " ++ path_str rel)%string;
   summary_last].

(** The run from [w] to [w'] reached the end of [create_project]: what
    it wrote ends with the summary. *)
Definition reaches_done (w w' : World) : Prop :=
  exists pre name rel,
    stdout w' = stdout w ++ pre ++ summary name rel /\ ~ In summary_last pre.

Definition stops_before (w w' : World) : Prop :=
  exists new, stdout w' = stdout w ++ new /\ ~ In summary_last new.

Lemma done_or_before (w w' : World) : reaches_done w w' -> stops_before w w' -> False.
Proof.
  intros (pre & name & rel & H1 & _) (new & H2 & Hn).
  rewrite H1 in H2. apply app_inv_head in H2. subst new.
  apply Hn. rewrite in_app_iff. right. unfold summary. simpl. taut.
Qed.

Definition exits_well (m : M Z) : Prop :=
  forall w r w',
    m w = (r, w') ->
    (r = Ret 0%Z /\ reaches_done w w') \/ (exit_status r = 1%Z /\ stops_before w w').

Lemma exits_well_ret1 : exits_well (ret 1%Z).
Proof.
  intros w r w' H. inversion H; subst. right. split; [reflexivity|].
  exists []. rewrite app_nil_r. auto.
Qed.

Lemma exits_well_bind {A : Type} (m : M A) (k : A -> M Z) :
  quiet m -> (forall a, exits_well (k a)) -> exits_well (bind m k).
Proof.
  intros Hm Hk w r w' H. unfold bind in H.
  destruct (m w) as [[a|c|e] w1] eqn:E; destruct (Hm _ _ _ E) as (_ & X1 & n1 & O1 & N1).
  - destruct (Hk a _ _ _ H) as [[-> (pre & name & rel & O2 & N2)]|[Hs (n2 & O2 & N2)]].
    + left. split; [reflexivity|]. exists (n1 ++ pre), name, rel.
      rewrite O2, O1, <- !app_assoc. split; [reflexivity|]. rewrite in_app_iff. taut.
    + right. split; [exact Hs|]. exists (n1 ++ n2).
      rewrite O2, O1, <- app_assoc. split; [reflexivity|]. rewrite in_app_iff. taut.
  - inversion H; subst. right. split; [now apply X1|]. now exists n1.
  - inversion H; subst. right. split; [reflexivity|]. now exists n1.
Qed.

Lemma report_created_runs (path : Path) (name : string) (w : World) :
  report_created path name w =
  match relative_to path (mkPath true (cwd w)) with
  | None => (Raise ValueError, w)
  | Some rel => (Ret tt, set_stdout (stdout w ++ summary name rel) w)
  end.
Proof.
  unfold report_created, bind, Path_cwd.
  destruct (relative_to path _); [same_world|reflexivity].
Qed.

Lemma exits_well_create_project (path : Path) (name : string) (use_claude : bool) :
  exits_well (create_project path name use_claude ;; ret 0%Z).
Proof.
  intros w r w' H. unfold create_project, bind in H.
  destruct (provision path name use_claude w) as [[[]|c|e] w1] eqn:E;
    destruct (quiet_provision _ _ _ _ _ _ E) as (_ & X1 & n1 & O1 & N1).
  - rewrite report_created_runs in H. destruct (relative_to path _) as [rel|].
    + inversion H; subst. left. split; [reflexivity|]. exists n1, name, rel.
      cbn [stdout set_stdout]. rewrite O1, <- app_assoc. auto.
    + inversion H; subst. right. split; [reflexivity|]. now exists n1.
  - inversion H; subst. right. split; [now apply X1|]. now exists n1.
  - inversion H; subst. right. split; [reflexivity|]. now exists n1.
Qed.

Lemma exits_well_main (path : option Path) (name : option string) (claudeapp : bool) :
  exits_well (main path name claudeapp).
Proof.
  unfold main.
  apply exits_well_bind; [apply quiet_ensure_uv_installed|intros _].
  do 3 (apply exits_well_bind; [quiet_step|intros _]).
  apply exits_well_bind; [destruct name; repeat quiet_step|intros name'].
  destruct name' as [n|].
  2:{ apply exits_well_bind; [quiet_step|intros _]. apply exits_well_ret1. }
  apply exits_well_bind; [apply quiet_check_package_name|intros ok].
  destruct ok; cbn [negb]; [|apply exits_well_ret1].
  apply exits_well_bind; [destruct path; repeat quiet_step|intros pp].
  apply exits_well_bind.
  { destruct path; [quiet_step|].
    apply quiet_bind; [quiet_step|intros _]. repeat quiet_step. }
  intros pp'. destruct pp' as [project_path|].
  - apply exits_well_create_project.
  - apply exits_well_bind; [quiet_step|intros _]. apply exits_well_ret1.
Qed.

Lemma ensure_uv_installed_missing (w : World) :
  uv w = None ->
  exists w', ensure_uv_installed w = (Exit 1, w').
Proof.
  intros H. unfold ensure_uv_installed, bind.
  rewrite (check_uv_version_missing _ _ H). eexists. reflexivity.
Qed.

Lemma main_rejected_name (path : option Path) (n : string) (claudeapp : bool)
                         (w w0 : World) :
  ensure_uv_installed w = (Ret tt, w0) ->
  name_ok n = false ->
  exists w', main path (Some n) claudeapp w = (Ret 1%Z, w').
Proof.
  intros He Hn. unfold main, bind at 1. rewrite He.
  unfold bind, echo, ret.
  match goal with
  | |- context [check_package_name n ?w1] =>
      destruct (check_package_name_runs n w1) as (msgs & -> & _)
  end.
  rewrite Hn. cbn [negb]. eexists. reflexivity.
Qed.

(** What [main] hands back: the value is 0 exactly when the run reached
    the end of [create_project], that is when what it wrote ends with
    the summary; every other run stops before the summary, with the
    value 1, with [sys.exit(1)] or with an exception. *)
Lemma main_returns (path : option Path) (name : option string) (claudeapp : bool) (w : World) :
  let r := fst (main path name claudeapp w) in
  let w' := snd (main path name claudeapp w) in
  (exit_status r = 0%Z \/ exit_status r = 1%Z) /\
  (r = Ret 0%Z <-> reaches_done w w') /\
  (exit_status r = 1%Z <-> stops_before w w').
Proof.
  intros r w'.
  destruct (main path name claudeapp w) as [r0 w0] eqn:E. cbn [fst snd] in r, w'.
  subst r w'.
  destruct (exits_well_main path name claudeapp w r0 w0 E) as [[-> Hd]|[Hs Hb]].
  - cbn [exit_status]. repeat split; auto; try discriminate.
    intros Hb. exfalso. eapply done_or_before; eassumption.
  - rewrite Hs. repeat split; auto; try discriminate.
    + intros ->. discriminate.
    + intros Hd. exfalso. eapply done_or_before; eassumption.
Qed.

Lemma main_command_status (path : option Path) (name : option string) (claudeapp : bool)
                          (w : World) (n : Z) (w' : World) :
  main path name claudeapp w = (Ret n, w') ->
  main_command path name claudeapp w = (Exit 0, w').
Proof. intros H. unfold main_command, click_command. now rewrite H. Qed.

(** C8, where the program departs from it.  With [uv] in place and a
    name on the command line that the validator rejects (the empty name
    included), [main] returns 1 before anything of the summary is
    written; but [main] is a click command, and the command drops the
    value its callback returns: the process ends with status 0, as it
    does after the summary.  The fatal steps, which call [sys.exit(1)],
    and [uv] missing do end the process with status 1. *)
Theorem main_exit_status
  (path : option Path) (n : string) (claudeapp : bool) (w w0 : World) :
  ensure_uv_installed w = (Ret tt, w0) ->
  name_ok n = false ->
  fst (main path (Some n) claudeapp w) = Ret 1%Z /\
  stops_before w (snd (main path (Some n) claudeapp w)) /\
  exit_status (fst (main_command path (Some n) claudeapp w)) = 0%Z /\
  (forall w1, uv w1 = None ->
              exit_status (fst (main_command path (Some n) claudeapp w1)) = 1%Z).
Proof.
  intros He Hn.
  destruct (main_rejected_name path n claudeapp w w0 He Hn) as [w' Hm].
  pose proof (main_returns path (Some n) claudeapp w) as (_ & _ & Hs).
  rewrite Hm in *. cbn [fst snd exit_status] in *. repeat split.
  - now apply Hs.
  - now rewrite (main_command_status _ _ _ _ _ _ Hm).
  - intros w1 H1. unfold main_command, click_command, main, bind at 1.
    destruct (ensure_uv_installed_missing w1 H1) as [w2 ->]. reflexivity.
Qed.


Lemma strip_prefix_spec (pre l r : list string) :
  strip_prefix pre l = Some r <-> l = pre ++ r.
Proof.
  revert l. induction pre as [|a pre IH]; intros l; simpl.
  - split; congruence.
  - destruct l as [|b l]; [split; discriminate|].
    destruct (String.eqb_spec a b) as [->|Hne].
    + rewrite IH. split; congruence.
    + split; [discriminate|congruence].
Qed.





(** ** Further properties of the program *)

(** Neither path is a prefix of the other. *)
Definition apart (p q : list string) : Prop :=
  strip_prefix p q = None /\ strip_prefix q p = None.

Lemma get_app_fresh {V : Type} (d : list (string * V)) (k k' : string) (v : V) :
  k <> k' -> Dict.get k' (d ++ [(k, v)]) = Dict.get k' d.
Proof.
  intros Hne. induction d as [|[k0 v0] d IH]; simpl.
  - destruct (String.eqb_spec k' k); congruence.
  - destruct (String.eqb k' k0); [reflexivity|exact IH].
Qed.

(** Writing at [p] leaves every path apart from [p] where it led. *)
Lemma put_lookup_apart (p : list string) :
  forall q r r' n,
    FS.put r p n = Some r' -> apart p q -> FS.lookup r' q = FS.lookup r q.
Proof.
  induction p as [|x p IH]; intros q r r' n H [H1 H2].
  - discriminate H1.
  - destruct q as [|y q]; [discriminate H2|].
    simpl in H. destruct r as [|es]; [discriminate|].
    cbn [strip_prefix] in H1, H2. cbn [FS.lookup].
    destruct (String.eqb_spec x y) as [->|Hne].
    + rewrite String.eqb_refl in H2.
      destruct (Dict.get y es) as [c|] eqn:E.
      * destruct (FS.put c p n) as [c'|] eqn:Ep; [|discriminate].
        inversion H; subst. rewrite get_set_same. eapply IH; [exact Ep|now split].
      * destruct p; [discriminate H1|discriminate H].
    + destruct (Dict.get x es) as [c|] eqn:E.
      * destruct (FS.put c p n) as [c'|]; [|discriminate].
        inversion H; subst. now rewrite get_set_other.
      * destruct p; [|discriminate]. inversion H; subst. now rewrite get_app_fresh.
Qed.

(** X1.  Whatever [update_claude_config] answers, it changes the file
    system at most at the configuration file: every path that is neither
    that file nor above or below it leads afterwards where it led
    before. *)
Theorem update_claude_config_frame
  (name : string) (p : Path) (w w' : World) (r : outcome bool) (q : list string) :
  update_claude_config name p w = (r, w') ->
  (forall d, claude_dir w = Some d -> apart (resolve (cwd w) (config_file d)) q) ->
  FS.lookup (fs w') q = FS.lookup (fs w) q.
Proof.
  intros H Hq.
  destruct (update_claude_config_cases name p w)
    as [[E _]|[(? & ? & _ & _ & E)|[(? & ? & ? & ? & _ & _ & _ & _ & E)|
        (d & text & cfg & srv & root & Hd & _ & _ & _ & _ & Hp & E)]]];
    rewrite E in H; inversion H; subst; try reflexivity.
  cbn [fs set_fs set_stdout]. eapply put_lookup_apart; [exact Hp|].
  apply Hq. now apply get_claude_config_path_inv.
Qed.

(** X2.  [update_claude_config] returns [True] only when the file held a
    JSON object whose [mcpServers], if there, was itself an object
    without the name; a file holding any other JSON value, or another
    kind of value under [mcpServers], is never written. *)
Theorem update_claude_config_true_only_if
  (name : string) (p : Path) (w w1 : World) :
  update_claude_config name p w = (Ret true, w1) ->
  exists d text cfg srv,
    get_claude_config_path w = (Ret (Some d), w) /\
    node_at w (config_file d) = Some (File true text) /\
    json_loads text = Some (JObj cfg) /\
    (Dict.get "mcpServers" cfg = Some (JObj srv) \/
     (Dict.get "mcpServers" cfg = None /\ srv = [])) /\
    Dict.get name srv = None /\
    node_at w1 (config_file d)
    = Some (File true (json_dumps (with_server cfg srv name p))).
Proof.
  intros H.
  destruct (update_claude_config_cases name p w)
    as [[E _]|[(? & ? & _ & _ & E)|[(? & ? & ? & ? & _ & _ & _ & _ & E)|
        (d & text & cfg & srv & root & Hd & Hn & Hl & Hs & Hm & Hp & E)]]];
    rewrite E in H; try discriminate.
  inversion H; subst w1. exists d, text, cfg, srv. repeat split; auto.
  - unfold servers_of in Hs. destruct (Dict.get "mcpServers" cfg) as [v|].
    + left. now rewrite Hs.
    + right. split; [reflexivity|]. now inversion Hs.
  - now apply mem_get.
  - unfold node_at. cbn [fs cwd set_fs set_stdout]. eapply put_lookup, Hp.
Qed.

Lemma copytree_frame (src dst : Path) (w w' : World) (r : outcome unit) (q : list string) :
  copytree src dst w = (r, w') ->
  apart (resolve (cwd w) dst) q ->
  FS.lookup (fs w') q = FS.lookup (fs w) q.
Proof.
  intros H Hq. unfold copytree in H.
  destruct (Shutil.copytree _ _) as [[entries ok]|]; [|inversion H; reflexivity].
  destruct (FS.put _ _ _) as [root|] eqn:Hp; [|inversion H; reflexivity].
  inversion H; subst. cbn [fs set_fs]. eapply put_lookup_apart; eassumption.
Qed.

(** X3.  [copy_template] changes the file system only inside the
    directory it copies into, whether the copy succeeds or fails: every
    path that is neither that directory nor above or below it leads
    afterwards where it led before.  Without a match nothing changes. *)
Theorem copy_template_frame
  (path : Path) (name : string) (w w' : World) (r : outcome unit) (q : list string) :
  copy_template path name w = (r, w') ->
  (forall f, glob_init w path = Some f -> apart (resolve (cwd w) (path_parent f)) q) ->
  FS.lookup (fs w') q = FS.lookup (fs w) q.
Proof.
  intros H Hq. destruct (glob_init w path) as [f|] eqn:Hg.
  - rewrite (copy_template_runs _ _ _ _ Hg) in H.
    destruct (copytree (template_dir w) (path_parent f) w) as [[[]|c|e] w1] eqn:Hc;
      inversion H; subst; cbn [fs set_stderr];
      eapply copytree_frame; eauto.
  - unfold copy_template, bind, get_world in H. rewrite Hg in H.
    inversion H. reflexivity.
Qed.

Lemma has_claude_app_runs (w : World) :
  exists b, has_claude_app w = (Ret b, w) /\
            (b = true <-> exists d, get_claude_config_path w = (Ret (Some d), w)).
Proof.
  unfold has_claude_app, bind.
  destruct (get_claude_config_path_total w) as [[d|] Hd]; rewrite Hd.
  - exists true. split; [reflexivity|]. split; eauto.
  - exists false. split; [reflexivity|]. split; [discriminate|].
    intros [d Hd']. congruence.
Qed.

(** X4.  The registration is offered only with [use_claude] set and the
    application's directory in place: otherwise the statement asks
    nothing, reads nothing and changes nothing.  When it is offered and
    the answer is [n] or [no], one line is read and the file system is
    left as it was. *)
Theorem offer_claude_app_asks_only_when :
  (forall path name w, offer_claude_app path name false w = (Ret tt, w)) /\
  (forall path name use_claude w,
      get_claude_config_path w = (Ret None, w) ->
      offer_claude_app path name use_claude w = (Ret tt, w)) /\
  (forall path name w d answer rest,
      get_claude_config_path w = (Ret (Some d), w) ->
      stdin w = answer :: rest ->
      PyStr.strip (lower answer) = "n" \/ PyStr.strip (lower answer) = "no" ->
      exists w',
        offer_claude_app path name true w = (Ret tt, w') /\
        fs w' = fs w /\ stdin w' = rest /\ stderr w' = stderr w).
Proof.
  repeat apply conj.
  - reflexivity.
  - intros path name use_claude w H. unfold offer_claude_app.
    destruct use_claude; [|reflexivity].
    unfold has_claude_app, bind. now rewrite H.
  - intros path name w d answer rest Hd Hin Hans.
    unfold offer_claude_app, has_claude_app, bind. rewrite Hd.
    unfold ret at 1. unfold click_confirm. rewrite Hin. cbn [confirm_lines].
    destruct Hans as [-> | ->]; cbn [String.eqb Ascii.eqb Bool.eqb orb andb];
      eexists; (split; [reflexivity|repeat split]).
Qed.

(** The three ways [subprocess.run(..., check=True)] ends. *)
Lemma subprocess_run_cases (cmd : list string) (dir : option Path) (w : World) :
  subprocess_run cmd dir w = (Raise FileNotFoundError, w) \/
  (exists out root, subprocess_run cmd dir w = (Ret out, set_fs root w)) \/
  (exists root, subprocess_run cmd dir w = (Raise CalledProcessError, set_fs root w)).
Proof.
  unfold subprocess_run. destruct cmd as [|exe args]; [now left|].
  destruct (String.eqb exe "uv"); [|now left].
  destruct (uv w) as [run|]; [|now left].
  destruct (FS.is_dir _); [|now left].
  destruct (run args _ (fs w)) as [[code out] root].
  destruct (Z.eqb code 0); right; [left|right]; eauto.
Qed.











(** X7.  A name the validator accepts is a single path component: it
    holds no slash and no backslash and is neither [.] nor [..], so
    [directory / name] is an entry of [directory] itself and cannot
    lead out of it. *)
Theorem accepted_name_is_one_component (name : string) (w : World) :
  fst (check_package_name name w) = Ret true ->
  ~ In_str "/" name /\
  ~ In_str "\" name /\
  name <> "." /\
  name <> ".." /\
  forall c p, resolve c (path_div p name) = resolve c p ++ [name].
Proof.
  intros H. destruct (check_package_name_runs name w) as (msgs & E & _).
  rewrite E in H. cbn [fst] in H. injection H as Hok.
  apply name_ok_rules in Hok. destruct Hok as (_ & _ & Hall & Hedge).
  assert (Hslash : ~ In_str "/" name).
  { intros Hin. destruct (Hall _ Hin) as [_ [Ha|[Hs|[Hs|Hs]]]]; discriminate. }
  assert (Hback : ~ In_str "\" name).
  { intros Hin. destruct (Hall _ Hin) as [_ [Ha|[Hs|[Hs|Hs]]]]; discriminate. }
  assert (Hdot : name <> ".").
  { intros ->. apply (proj1 (Hedge "."%char (or_intror (or_intror eq_refl)))).
    now exists "". }
  assert (Hdots : name <> "..").
  { intros ->. apply (proj1 (Hedge "."%char (or_intror (or_intror eq_refl)))).
    now exists ".". }
  repeat split; auto. intros c p. now apply resolve_div.
Qed.

(** X8.  The validator writes exactly one line to the error stream when
    it rejects a name and nothing when it accepts one, and changes
    nothing else.  The first rule that fails chooses the line: a name
    with a space gets the message about spaces whatever else is wrong
    with it. *)
Theorem check_package_name_reports_once (name : string) (w : World) :
  exists msgs,
    check_package_name name w = (Ret (name_ok name), set_stderr (stderr w ++ msgs) w) /\
    length msgs = (if name_ok name then 0 else 1) /\
    (name <> "" -> PyStr.contains " " name = true ->
     msgs = ["❌ Project name must not contain spaces"]).
Proof.
  unfold check_package_name, name_ok.
  destruct (String.eqb_spec name "") as [->|Hne].
  { eexists [_]. repeat split. intros Hn. now destruct Hn. }
  destruct (PyStr.contains " " name).
  { eexists [_]. repeat split. }
  destruct (PyStr.all _ name);
    [|eexists [_]; repeat split; discriminate].
  destruct (PyStr.startswith_any _ name || PyStr.endswith_any _ name);
    [eexists [_]; repeat split; discriminate|].
  exists []. cbn [negb andb length]. repeat split; [|discriminate].
  unfold ret. rewrite app_nil_r. destruct w; reflexivity.
Qed.

(** X9.  A relative project path never reaches the summary: for every
    relative [path], also one that names a directory inside the working
    directory, [create_project] sets the project up and then raises
    [ValueError] at [path.relative_to(Path.cwd())]. *)
Theorem create_project_relative_path
  (path : Path) (name : string) (use_claude : bool) (w w1 : World) :
  is_abs path = false ->
  provision path name use_claude w = (Ret tt, w1) ->
  create_project path name use_claude w = (Raise ValueError, w1).
Proof.
  intros Hrel Hp. unfold create_project, bind. rewrite Hp, report_created_runs.
  unfold relative_to. rewrite Hrel. reflexivity.
Qed.

Lemma strip_prefix_app (c rest : list string) : strip_prefix c (c ++ rest) = Some rest.
Proof. now apply strip_prefix_spec. Qed.

(** X10.  At the default location, the directory [name] of the working
    directory, the summary step cannot fail: once the project is set up
    [create_project] returns, and the summary names the project
    directory by the project name alone. *)
Theorem create_project_default_path
  (name : string) (use_claude : bool) (w w1 : World) :
  provision (path_div (mkPath true (cwd w)) name) name use_claude w = (Ret tt, w1) ->
  create_project (path_div (mkPath true (cwd w)) name) name use_claude w
  = (Ret tt, set_stdout (stdout w1 ++ summary name (mkPath false [name])) w1).
Proof.
  intros Hp. destruct (quiet_provision _ _ _ _ _ _ Hp) as (Hc & _).
  unfold create_project, bind. rewrite Hp, report_created_runs, Hc.
  unfold relative_to, path_div. cbn [is_abs parts Bool.eqb].
  now rewrite strip_prefix_app.
Qed.





(** X12.  When [uv init] ends with a return code other than zero,
    [create_project] writes the failure of the initialisation to the
    error stream and ends the process with status 1: [uv add] is not
    run and no template is copied, the file system is the one [uv init]
    left.  When [uv init] succeeds and [uv add mcp] fails, it ends the
    same way with the failure of the dependency. *)
Theorem create_project_uv_fails :
  (forall path name use_claude w w0 code out root,
      mkdir_parents path w = (Ret tt, w0) ->
      uv_answers w0 ["init"; "--name"; name; "--package"; "--app"; "--quiet"]
                 (resolve (cwd w0) path) code out root ->
      code <> 0%Z ->
      create_project path name use_claude w
      = (Exit 1, set_stderr (stderr w0 ++ ["❌ Error: Failed to initialize project."])
                            (set_fs root w0))) /\
  (forall path name use_claude w w0 out root code' out' root',
      mkdir_parents path w = (Ret tt, w0) ->
      uv_answers w0 ["init"; "--name"; name; "--package"; "--app"; "--quiet"]
                 (resolve (cwd w0) path) 0 out root ->
      uv_answers (set_fs root w0) ["add"; "mcp"] (resolve (cwd w0) path) code' out' root' ->
      code' <> 0%Z ->
      create_project path name use_claude w
      = (Exit 1, set_stderr (stderr w0 ++ ["❌ Error: Failed to add mcp dependency."])
                            (set_fs root' w0))).
Proof.
  split.
  - intros path name use_claude w w0 code out root Hm (run & Hu & Hd & Hr) Hc.
    unfold create_project, provision, bind at 1 2. rewrite Hm.
    unfold bind at 1. unfold try_except at 1. unfold bind at 1.
    unfold subprocess_run. cbn [String.eqb Ascii.eqb Bool.eqb].
    rewrite Hu, Hd, Hr. destruct (Z.eqb_spec code 0); [contradiction|]. reflexivity.
  - intros path name use_claude w w0 out root code' out' root' Hm
           (run & Hu & Hd & Hr) (run' & Hu' & Hd' & Hr') Hc.
    unfold create_project, provision, bind at 1 2. rewrite Hm.
    unfold bind at 1. unfold try_except at 1. unfold bind at 1.
    unfold subprocess_run at 1. cbn [String.eqb Ascii.eqb Bool.eqb].
    rewrite Hu, Hd, Hr. cbn [Z.eqb ret].
    unfold bind at 1. unfold try_except at 1. unfold bind at 1.
    unfold subprocess_run at 1. cbn [String.eqb Ascii.eqb Bool.eqb cwd set_fs fs uv] in *.
    rewrite Hu', Hd', Hr'. destruct (Z.eqb_spec code' 0); [contradiction|].
    same_world.
Qed.

(** A statement that reads no input. *)
Definition reads_nothing {A : Type} (m : M A) : Prop :=
  forall w r w', m w = (r, w') -> stdin w' = stdin w.

Lemma reads_nothing_bind {A B : Type} (m : M A) (k : A -> M B) :
  reads_nothing m -> (forall a, reads_nothing (k a)) -> reads_nothing (bind m k).
Proof.
  intros Hm Hk w r w' H. unfold bind in H.
  destruct (m w) as [[a|c|e] w1] eqn:E; pose proof (Hm _ _ _ E) as H1.
  - rewrite (Hk a _ _ _ H). exact H1.
  - now inversion H; subst.
  - now inversion H; subst.
Qed.

Lemma reads_nothing_try {A : Type} (body : M A) (h : exn -> option (M A)) :
  reads_nothing body -> (forall e k, h e = Some k -> reads_nothing k) ->
  reads_nothing (try_except body h).
Proof.
  intros Hb Hh w r w' H. unfold try_except in H.
  destruct (body w) as [[a|c|e] w1] eqn:E; pose proof (Hb _ _ _ E) as H1.
  - now inversion H; subst.
  - now inversion H; subst.
  - destruct (h e) as [k|] eqn:Ek.
    + rewrite (Hh e k Ek _ _ _ H). exact H1.
    + now inversion H; subst.
Qed.

Lemma reads_nothing_pure {A : Type} (m : M A) :
  (forall w, stdin (snd (m w)) = stdin w) -> reads_nothing m.
Proof. intros H w r w' E. specialize (H w). now rewrite E in H. Qed.

Lemma reads_nothing_subprocess_run (cmd : list string) (dir : option Path) :
  reads_nothing (subprocess_run cmd dir).
Proof.
  intros w r w' H.
  destruct (subprocess_run_cases cmd dir w) as [E|[(out & root & E)|(root & E)]];
    rewrite E in H; now inversion H.
Qed.

Lemma reads_nothing_copytree (src dst : Path) : reads_nothing (copytree src dst).
Proof.
  intros w r w' H. unfold copytree in H.
  destruct (Shutil.copytree _ _) as [[entries ok]|]; [|now inversion H].
  destruct (FS.put _ _ _); [|now inversion H].
  destruct ok; now inversion H.
Qed.

Lemma reads_nothing_mkdir_parents (p : Path) : reads_nothing (mkdir_parents p).
Proof.
  intros w r w' H. unfold mkdir_parents in H.
  destruct (FS.makedirs _ _); now inversion H.
Qed.

Ltac reads_step :=
  match goal with
  | |- reads_nothing (bind _ _) => apply reads_nothing_bind; [|intros ?]
  | |- reads_nothing (try_except _ _) =>
      apply reads_nothing_try;
      [|let e := fresh "e" in let k := fresh "k" in let E := fresh "E" in
        intros e k E; destruct e; inversion E; subst; clear E]
  | |- reads_nothing (subprocess_run _ _) => apply reads_nothing_subprocess_run
  | |- reads_nothing (copytree _ _) => apply reads_nothing_copytree
  | |- reads_nothing (mkdir_parents _) => apply reads_nothing_mkdir_parents
  | |- reads_nothing (match ?x with _ => _ end) => destruct x
  | |- reads_nothing _ => apply reads_nothing_pure; intros ?; reflexivity
  end.

Lemma reads_nothing_ensure_uv_installed : reads_nothing ensure_uv_installed.
Proof. unfold ensure_uv_installed, check_uv_version. repeat reads_step. Qed.

Lemma reads_nothing_copy_template (path : Path) (name : string) :
  reads_nothing (copy_template path name).
Proof. unfold copy_template. repeat reads_step. Qed.

Lemma reads_nothing_check_package_name (name : string) :
  reads_nothing (check_package_name name).
Proof.
  intros w r w' H. destruct (check_package_name_runs name w) as (msgs & E & _).
  rewrite E in H. now inversion H.
Qed.

Lemma reads_nothing_report_created (path : Path) (name : string) :
  reads_nothing (report_created path name).
Proof.
  intros w r w' H. rewrite report_created_runs in H.
  destruct (relative_to _ _); now inversion H.
Qed.

(** X13.  Given [--path], [--name] and [--no-claudeapp], the run is not
    interactive: however it ends, [main] has read nothing from the
    input. *)
Theorem main_reads_nothing
  (path : Path) (name : string) (w w' : World) (r : outcome Z) :
  main (Some path) (Some name) false w = (r, w') ->
  stdin w' = stdin w.
Proof.
  revert w r w'. change (reads_nothing (main (Some path) (Some name) false)).
  unfold main.
  apply reads_nothing_bind; [apply reads_nothing_ensure_uv_installed|intros _].
  do 3 (apply reads_nothing_bind; [reads_step|intros _]).
  apply reads_nothing_bind; [reads_step|intros n].
  destruct n as [n|]; [|repeat reads_step].
  apply reads_nothing_bind; [apply reads_nothing_check_package_name|intros ok].
  destruct ok; cbn [negb]; [|reads_step].
  apply reads_nothing_bind; [reads_step|intros pp].
  apply reads_nothing_bind; [reads_step|intros pp'].
  destruct pp' as [project_path|]; [|repeat reads_step].
  apply reads_nothing_bind; [|intros _; reads_step].
  unfold create_project, provision.
  apply reads_nothing_bind; [|intros _; apply reads_nothing_report_created].
  apply reads_nothing_bind; [reads_step|intros _].
  apply reads_nothing_bind; [repeat reads_step|intros _].
  apply reads_nothing_bind; [repeat reads_step|intros _].
  apply reads_nothing_bind; [apply reads_nothing_copy_template|intros _].
  unfold offer_claude_app. reads_step.
Qed.



(** X15.  The handlers of [create_project] catch the failure of a [uv]
    that ran, not its absence: without [uv] on the search path the
    function makes the project directory and then lets
    [FileNotFoundError] through, with no error message of its own. *)
Theorem create_project_without_uv
  (path : Path) (name : string) (use_claude : bool) (w w0 : World) :
  mkdir_parents path w = (Ret tt, w0) ->
  uv w = None ->
  create_project path name use_claude w = (Raise FileNotFoundError, w0) /\
  stderr w0 = stderr w /\ stdout w0 = stdout w.
Proof.
  intros Hm Hu.
  assert (Hw : uv w0 = None /\ stderr w0 = stderr w /\ stdout w0 = stdout w).
  { unfold mkdir_parents in Hm. destruct (FS.makedirs _ _); inversion Hm; subst. auto. }
  destruct Hw as (Hu0 & He & Ho). split; [|now split].
  unfold create_project, provision, bind at 1 2. rewrite Hm.
  unfold bind at 1. unfold try_except at 1. unfold bind at 1.
  unfold subprocess_run. cbn [String.eqb Ascii.eqb Bool.eqb]. now rewrite Hu0.
Qed.

End Program.

(** ** The program on the demonstration platform *)

Module Run.

Definition update_claude_config := update_claude_config Demo.json_loads Demo.json_dumps Demo.path_str.
Definition copy_template := copy_template Demo.exn_str.
Definition provision := provision Demo.json_loads Demo.json_dumps Demo.path_str Demo.exn_str.
Definition create_project :=
  create_project Demo.json_loads Demo.json_dumps Demo.path_str Demo.exn_str.
Definition main :=
  main Demo.json_loads Demo.json_dumps Demo.path_str Demo.Path_of Demo.exn_str.

(** The world after [weather] was registered once. *)
Definition registered : World :=
  snd (update_claude_config "weather" Demo.project (Demo.world "0.5.0" [])).

End Run.


(** The configuration of the demonstration machine, read again after
    [weather] was registered. *)
Lemma update_claude_config_round_trip_witness :
  (text' <- read_text (config_file Demo.claude) ;; ret (Demo.json_loads text')) Run.registered
  = (Ret (Some (JObj (Dict.set "mcpServers"
                        (JObj (Demo.servers ++
                               [("weather",
                                 JObj [("command", JStr "uv");
                                       ("args", JArr [JStr "--directory";
                                                      JStr "/Users/me/work/weather";
                                                      JStr "run"; JStr "weather"])])]))
                        Demo.config))),
     Run.registered).
Proof.
  refine (proj1 (update_claude_config_round_trip
                   Demo.json_loads Demo.json_dumps Demo.path_str
                   "weather" Demo.project (Demo.world "0.5.0" []) Run.registered
                   Demo.claude true Demo.config_text Demo.config Demo.servers
                   _ _ _ _ _ _ _));
    vm_compute; reflexivity.
Defined.







(** The whole run on the demonstration machine, with the name given and
    every question answered by the default: [main] returns 0 and the
    output ends with the summary. *)
Lemma main_returns_example :
  fst (Run.main None (Some "weather") true (Demo.world "0.5.0" [""; ""])) = Ret 0%Z /\
  reaches_done Demo.path_str (Demo.world "0.5.0" [""; ""])
               (snd (Run.main None (Some "weather") true (Demo.world "0.5.0" [""; ""]))).
Proof.
  split; [vm_compute; reflexivity|].
  apply (proj1 (proj2 (main_returns
           Demo.json_loads Demo.json_dumps Demo.path_str Demo.Path_of Demo.exn_str
           None (Some "weather") true (Demo.world "0.5.0" [""; ""])))).
  vm_compute; reflexivity.
Qed.

(** [--name "bad name"] on the demonstration machine: [main] returns 1,
    and the command ends the process with status 0. *)
Lemma main_exit_status_witness :
  fst (Run.main None (Some "bad name") true (Demo.world "0.5.0" [])) = Ret 1%Z /\
  exit_status
    (fst (main_command Demo.json_loads Demo.json_dumps Demo.path_str Demo.Path_of
                       Demo.exn_str None (Some "bad name") true (Demo.world "0.5.0" [])))
  = 0%Z.
Proof.
  destruct (main_exit_status
              Demo.json_loads Demo.json_dumps Demo.path_str Demo.Path_of Demo.exn_str
              None "bad name" true (Demo.world "0.5.0" []) (Demo.world "0.5.0" []))
    as (H1 & _ & H2 & _).
  - vm_compute; reflexivity.
  - vm_compute; reflexivity.
  - split; [exact H1|exact H2].
Defined.




(** ** Further runs on the demonstration platform *)

(** Registering [weather] leaves the installed tool alone. *)
Lemma update_claude_config_frame_witness :
  FS.lookup (fs Run.registered) ["opt"; "create_mcp_server"; "__init__.py"]
  = FS.lookup (fs (Demo.world "0.5.0" [])) ["opt"; "create_mcp_server"; "__init__.py"].
Proof.
  refine (update_claude_config_frame Demo.json_loads Demo.json_dumps Demo.path_str
            "weather" Demo.project (Demo.world "0.5.0" []) Run.registered (Ret true)
            ["opt"; "create_mcp_server"; "__init__.py"] _ _).
  - vm_compute; reflexivity.
  - intros d H. vm_compute in H. inversion H; subst d. split; vm_compute; reflexivity.
Defined.

Lemma update_claude_config_true_only_if_witness :
  exists d text cfg srv,
    get_claude_config_path (Demo.world "0.5.0" []) = (Ret (Some d), Demo.world "0.5.0" []) /\
    node_at (Demo.world "0.5.0" []) (config_file d) = Some (File true text) /\
    Demo.json_loads text = Some (JObj cfg) /\
    (Dict.get "mcpServers" cfg = Some (JObj srv) \/
     (Dict.get "mcpServers" cfg = None /\ srv = [])) /\
    Dict.get "weather" srv = None /\
    node_at Run.registered (config_file d)
    = Some (File true (Demo.json_dumps (with_server Demo.path_str cfg srv "weather"
                                                    Demo.project))).
Proof.
  refine (update_claude_config_true_only_if Demo.json_loads Demo.json_dumps Demo.path_str
            "weather" Demo.project (Demo.world "0.5.0" []) Run.registered _).
  vm_compute; reflexivity.
Defined.

(** Copying the template into the scaffold leaves [pyproject.toml]. *)
Lemma copy_template_frame_witness :
  FS.lookup (fs (snd (Run.copy_template Demo.project "weather" Demo.scaffolded)))
            ["Users"; "me"; "work"; "weather"; "pyproject.toml"]
  = Some (File true "[project]").
Proof.
  rewrite (copy_template_frame Demo.exn_str Demo.project "weather" Demo.scaffolded
             (snd (Run.copy_template Demo.project "weather" Demo.scaffolded)) (Ret tt)
             ["Users"; "me"; "work"; "weather"; "pyproject.toml"]).
  - vm_compute; reflexivity.
  - vm_compute; reflexivity.
  - intros f H. vm_compute in H. inversion H; subst f. split; vm_compute; reflexivity.
Defined.


Lemma accepted_name_is_one_component_witness :
  resolve ["Users"; "me"; "work"] (path_div (mkPath true ["Users"; "me"; "work"]) "my-project")
  = resolve ["Users"; "me"; "work"] (mkPath true ["Users"; "me"; "work"]) ++ ["my-project"].
Proof.
  exact (proj2 (proj2 (proj2 (proj2
           (accepted_name_is_one_component "my-project" (Demo.world "0.5.0" []) eq_refl))))
           ["Users"; "me"; "work"] (mkPath true ["Users"; "me"; "work"])).
Defined.

(** [--path weather], relative to the working directory. *)
Lemma create_project_relative_path_witness :
  Run.create_project (mkPath false ["weather"]) "weather" false (Demo.world "0.5.0" [])
  = (Raise ValueError,
     snd (Run.provision (mkPath false ["weather"]) "weather" false (Demo.world "0.5.0" []))).
Proof.
  refine (create_project_relative_path
            Demo.json_loads Demo.json_dumps Demo.path_str Demo.exn_str
            (mkPath false ["weather"]) "weather" false (Demo.world "0.5.0" []) _ eq_refl _).
  vm_compute; reflexivity.
Defined.

Lemma create_project_default_path_witness :
  stdout (snd (Run.create_project Demo.project "weather" false (Demo.world "0.5.0" [])))
  = ["✅ Created project weather in weather";
     "ℹ️ To install dependencies run:";
     "   cd weather";
     "   uv sync --dev --all-extras"].
Proof.
  change Demo.project
    with (path_div (mkPath true (cwd (Demo.world "0.5.0" []))) "weather").
  unfold Run.create_project.
  rewrite (create_project_default_path
             Demo.json_loads Demo.json_dumps Demo.path_str Demo.exn_str
             "weather" false (Demo.world "0.5.0" [])
             (snd (Run.provision Demo.project "weather" false (Demo.world "0.5.0" [])))).
  - vm_compute; reflexivity.
  - vm_compute; reflexivity.
Defined.

Lemma main_reads_nothing_witness :
  stdin (snd (Run.main (Some Demo.project) (Some "weather") false
                       (Demo.world "0.5.0" ["a line nobody reads"])))
  = ["a line nobody reads"].
Proof.
  exact (main_reads_nothing
           Demo.json_loads Demo.json_dumps Demo.path_str Demo.Path_of Demo.exn_str
           Demo.project "weather" (Demo.world "0.5.0" ["a line nobody reads"])
           _ _ (surjective_pairing _)).
Defined.


(** A machine on which [uv] is gone. *)
Definition without_uv : World :=
  mkWorld "darwin" ["Users"; "me"] ["Users"; "me"; "work"]
          ["opt"; "create_mcp_server"; "__init__.py"] Demo.root None [] [] [].

Lemma create_project_without_uv_witness :
  fst (create_project Demo.json_loads Demo.json_dumps Demo.path_str Demo.exn_str
                      Demo.project "weather" false without_uv)
  = Raise FileNotFoundError.
Proof.
  rewrite (proj1 (create_project_without_uv
                    Demo.json_loads Demo.json_dumps Demo.path_str Demo.exn_str
                    Demo.project "weather" false without_uv
                    (snd (mkdir_parents Demo.project without_uv)) eq_refl eq_refl)).
  reflexivity.
Defined.

(** A [uv] that fails whatever it is asked. *)
Definition failing_uv : World :=
  mkWorld "darwin" ["Users"; "me"] ["Users"; "me"; "work"]
          ["opt"; "create_mcp_server"; "__init__.py"] Demo.root
          (Some (fun _ _ root => (2%Z, EmptyString, root))) [] [] [].

Lemma create_project_uv_fails_witness :
  exists w',
    create_project Demo.json_loads Demo.json_dumps Demo.path_str Demo.exn_str
                   Demo.project "weather" false failing_uv
    = (Exit 1, w') /\
    stderr w' = ["❌ Error: Failed to initialize project."].
Proof.
  eexists. split.
  - refine (proj1 (create_project_uv_fails
                     Demo.json_loads Demo.json_dumps Demo.path_str Demo.exn_str)
                  Demo.project "weather" false failing_uv
                  (snd (mkdir_parents Demo.project failing_uv)) 2%Z EmptyString _ eq_refl _ _).
    + eexists. repeat split.
    + discriminate.
  - reflexivity.
Defined.

(** The offer declined on the demonstration machine. *)
Lemma offer_claude_app_asks_only_when_witness :
  exists w',
    offer_claude_app Demo.json_loads Demo.json_dumps Demo.path_str
                     Demo.project "weather" true (Demo.world "0.5.0" ["No"; "next"])
    = (Ret tt, w') /\
    fs w' = Demo.root /\ stdin w' = ["next"] /\ stderr w' = [].
Proof.
  refine (proj2 (proj2 (offer_claude_app_asks_only_when
                          Demo.json_loads Demo.json_dumps Demo.path_str))
                Demo.project "weather" (Demo.world "0.5.0" ["No"; "next"])
                Demo.claude "No" ["next"] _ eq_refl _).
  - vm_compute; reflexivity.
  - right. vm_compute; reflexivity.
Defined.
